(** * CSV import of exercises and workouts (src/utils/csvImport.ts)

    A shallow embedding of [parseCSVLine], [parseExercisesCSV],
    [parseWorkoutsCSV] and the two template generators, and the properties
    of the importers established on it.

    Conventions of the embedding.
    - A JavaScript string is a [string]: a sequence of 8-bit code units read
      as Latin-1.  Code units above 255 are outside the model.
    - [undefined] is [None]; [x?.f()] is [f <$> x].
    - A JavaScript number holding an integer is a [Z].  This is exact for
      magnitudes up to 2^53; longer digit strings are outside the model.
    - A thrown [Error] is [Throw message], the message built as the source
      builds it.
    - [console.log] and [console.warn] only write diagnostics and are left
      out.
    - The [Date] constructor, [Date.prototype.toDateString] and
      [crypto.randomUUID] belong to the platform: the workout importer is
      parameterised by them. *)

From Stdlib Require Import String Ascii ZArith List Lia DecimalString Permutation Sorted.
From stdpp Require Import gmap strings list.

Local Open Scope string_scope.

(** ** JavaScript string primitives *)

Module JS.

(** The code unit of a character. *)
Definition code (c : ascii) : nat := nat_of_ascii c.

(** WhiteSpace and LineTerminator code units below 256: TAB, LF, VT, FF, CR,
    SP and NBSP.  These are what [String.prototype.trim] removes and what
    [parseInt] skips. *)
Definition isWhiteSpace (c : ascii) : bool :=
  let n := code c in
  (((9 <=? n) && (n <=? 13)) || (n =? 32) || (n =? 160))%nat.

(** The characters that [.] of a regular expression does not match. *)
Definition isLineTerminator (c : ascii) : bool :=
  let n := code c in ((n =? 10) || (n =? 13))%nat.

Fixpoint trimStart (s : string) : string :=
  match s with
  | EmptyString => EmptyString
  | String c rest => if isWhiteSpace c then trimStart rest else s
  end.

Fixpoint trimEnd (s : string) : string :=
  match s with
  | EmptyString => EmptyString
  | String c rest =>
      match trimEnd rest with
      | EmptyString => if isWhiteSpace c then EmptyString else String c EmptyString
      | rest' => String c rest'
      end
  end.

(** [s.trim()] *)
Definition trim (s : string) : string := trimEnd (trimStart s).

(** [toLowerCase] on one Latin-1 code unit: A-Z and the accented capitals
    0xC0-0xDE (all but the multiplication sign 0xD7) move up by 32. *)
Definition lowerChar (c : ascii) : ascii :=
  let n := code c in
  if (((65 <=? n) && (n <=? 90)) || ((192 <=? n) && (n <=? 222) && negb (n =? 215)))%nat
  then ascii_of_nat (n + 32) else c.

(** [s.toLowerCase()] *)
Fixpoint toLowerCase (s : string) : string :=
  match s with
  | EmptyString => EmptyString
  | String c rest => String (lowerChar c) (toLowerCase rest)
  end.

(** [s.split(sep)] for a one-character separator: never empty. *)
Fixpoint split (sep : ascii) (s : string) : list string :=
  match s with
  | EmptyString => [EmptyString]
  | String c rest =>
      if Ascii.eqb c sep then EmptyString :: split sep rest
      else match split sep rest with
           | piece :: pieces => String c piece :: pieces
           | [] => [String c EmptyString]
           end
  end.

(** [parts.join(sep)] *)
Fixpoint join (sep : string) (parts : list string) : string :=
  match parts with
  | [] => EmptyString
  | [p] => p
  | p :: rest => p ++ sep ++ join sep rest
  end.

(** [hay.includes(needle)] *)
Fixpoint includes (hay needle : string) : bool :=
  String.prefix needle hay ||
  match hay with
  | EmptyString => false
  | String _ rest => includes rest needle
  end.

(** Truthiness of a possibly undefined string: [undefined] and the empty
    string are falsy, every other string is truthy. *)
Definition truthy (v : option string) : bool :=
  match v with
  | Some (String _ _) => true
  | _ => false
  end.

(** The double quote character and the string made of it. *)
Definition dquote : ascii := ascii_of_nat 34.
Definition dq : string := String dquote EmptyString.

(** The line feed character. *)
Definition LF : ascii := ascii_of_nat 10.

(** [`${n}`] for a natural number. *)
Definition showNat (n : nat) : string := NilEmpty.string_of_uint (Nat.to_uint n).

(** *** parseInt *)

(** The value of a digit in the given radix, if the character is one. *)
Definition digitValue (radix : Z) (c : ascii) : option Z :=
  let n := Z.of_nat (code c) in
  let v := (if (48 <=? n) && (n <=? 57) then n - 48
            else if (97 <=? n) && (n <=? 122) then n - 87
            else if (65 <=? n) && (n <=? 90) then n - 55
            else 99)%Z in
  if (v <? radix)%Z then Some v else None.

(** Reads the longest run of digits at the front of [s]; [acc] is the value
    read so far, [None] while no digit has been read. *)
Fixpoint readDigits (radix : Z) (s : string) (acc : option Z) : option Z :=
  match s with
  | EmptyString => acc
  | String c rest =>
      match digitValue radix c with
      | Some v => readDigits radix rest (Some (default 0 acc * radix + v)%Z)
      | None => acc
      end
  end.

(** The sign read at the front of a string, and what follows it. *)
Definition readSign (s : string) : Z * string :=
  match s with
  | String c rest =>
      if Ascii.eqb c "-" then ((-1)%Z, rest)
      else if Ascii.eqb c "+" then (1%Z, rest)
      else (1%Z, s)
  | EmptyString => (1%Z, s)
  end.

(** The radix chosen when none is given, and the digits to read: 16 after
    the prefix [0x] or [0X], else 10. *)
Definition readRadix (s : string) : Z * string :=
  match s with
  | String c0 (String c1 rest) =>
      if Ascii.eqb c0 "0" && (Ascii.eqb c1 "x" || Ascii.eqb c1 "X")
      then (16%Z, rest) else (10%Z, s)
  | _ => (10%Z, s)
  end.

(** [parseInt(s)] with no radix argument; [None] is NaN.  Leading white
    space is skipped, one sign is read, the radix is chosen, and the digits
    are read up to the first character that is not one: what follows them
    is ignored. *)
Definition parseInt (s : string) : option Z :=
  let '(sign, s2) := readSign (trimStart s) in
  let '(radix, s3) := readRadix s2 in
  (λ v, (sign * v)%Z) <$> readDigits radix s3 None.

End JS.

Import JS.

(** ** Results of fallible code *)

(** A call either returns a value or throws an [Error] with a message. *)
Inductive Result (A : Type) : Type :=
| Ok (a : A)
| Throw (message : string).
Arguments Ok {A} a.
Arguments Throw {A} message.

#[export] Instance Result_ret : MRet Result := λ A a, Ok a.
#[export] Instance Result_bind : MBind Result :=
  λ A B f r, match r with Ok a => f a | Throw msg => Throw msg end.

Definition throws {A} (r : Result A) : bool :=
  match r with Ok _ => false | Throw _ => true end.

(** ** Arrays and insertion-ordered maps *)

(** [arr[i]] for an index held in a number: [undefined] out of range. *)
Definition at_index {A} (arr : list A) (i : Z) : option A :=
  if (i <? 0)%Z then None else arr !! Z.to_nat i.

Fixpoint findIndexFrom {A} (p : A → bool) (arr : list A) (i : Z) : Z :=
  match arr with
  | [] => (-1)%Z
  | x :: rest => if p x then i else findIndexFrom p rest (i + 1)%Z
  end.

(** [arr.findIndex(p)]: the index of the first element that satisfies [p],
    or -1. *)
Definition findIndex {A} (p : A → bool) (arr : list A) : Z := findIndexFrom p arr 0%Z.

(** A JavaScript [Map] with string keys.  It iterates in the order in which
    the keys were first set, so it is an association list in that order. *)
Module OMap.

Definition t (V : Type) : Type := list (string * V).

Definition has {V} (m : t V) (k : string) : bool :=
  existsb (λ kv, String.eqb kv.1 k) m.

Definition get {V} (m : t V) (k : string) : option V :=
  snd <$> find (λ kv, String.eqb kv.1 k) m.

(** [m.set(k, v)]: a known key keeps its place, a new key goes last. *)
Fixpoint set {V} (m : t V) (k : string) (v : V) : t V :=
  match m with
  | [] => [(k, v)]
  | (k', v') :: rest =>
      if String.eqb k' k then (k, v) :: rest else (k', v') :: set rest k v
  end.

(** A mutation of the object stored under [k], as through the reference
    returned by [m.get(k)]. *)
Fixpoint update {V} (m : t V) (k : string) (f : V → V) : t V :=
  match m with
  | [] => []
  | (k', v') :: rest =>
      if String.eqb k' k then (k', f v') :: rest else (k', v') :: update rest k f
  end.

Definition keys {V} (m : t V) : list string := m.*1.
Definition values {V} (m : t V) : list V := m.*2.

End OMap.

(** ** The line tokenizer *)

(** The loop of [parseCSVLine] over the characters that remain, with the
    loop variables [current], [inQuotes] and [result]. *)
Fixpoint scanLine (line current : string) (inQuotes : bool) (result : list string)
  : list string :=
  match line with
  | EmptyString => result ++ [trim current]
  | String char rest =>
      if Ascii.eqb char dquote then
        match inQuotes, rest with
        | true, String next rest' =>
            if Ascii.eqb next dquote
            then scanLine rest' (current ++ dq) inQuotes result
            else scanLine rest current (negb inQuotes) result
        | _, _ => scanLine rest current (negb inQuotes) result
        end
      else if Ascii.eqb char "," && negb inQuotes
      then scanLine rest EmptyString inQuotes (result ++ [trim current])
      else scanLine rest (current ++ String char EmptyString) inQuotes result
  end.

(** Splits a string into all but its last character and that character. *)
Fixpoint unsnoc (s : string) : option (string * ascii) :=
  match s with
  | EmptyString => None
  | String c rest =>
      match unsnoc rest with
      | None => Some (EmptyString, c)
      | Some (init, last) => Some (String c init, last)
      end
  end.

Fixpoint allChars (p : ascii → bool) (s : string) : bool :=
  match s with
  | EmptyString => true
  | String c rest => p c && allChars p rest
  end.

(** The replacement applied to every field, whose pattern is: start of the
    field, a quote, any run of characters other than line terminators, a
    quote, end of the field.  A field of that shape loses the two quotes;
    any other field is unchanged. *)
Definition unquote (field : string) : string :=
  match field with
  | String first rest =>
      match unsnoc rest with
      | Some (inner, last) =>
          if Ascii.eqb first dquote && Ascii.eqb last dquote
             && allChars (λ c, negb (isLineTerminator c)) inner
          then inner else field
      | None => field
      end
  | EmptyString => field
  end.

Definition parseCSVLine (line : string) : list string :=
  map unquote (scanLine line EmptyString false []).

(** ** Categories *)

(** [Exercise['category']], the union of eight string literals. *)
Inductive Category : Type :=
| Abs | Legs | Arms | Back | Shoulders | Chest | Cardio | FullBody.

#[export] Instance Category_eq_dec : EqDecision Category.
Proof. solve_decision. Defined.

(** The string literal of a category. *)
Definition categoryName (c : Category) : string :=
  match c with
  | Abs => "abs" | Legs => "legs" | Arms => "arms" | Back => "back"
  | Shoulders => "shoulders" | Chest => "chest" | Cardio => "cardio"
  | FullBody => "full-body"
  end.

Definition validCategories : list Category :=
  [Abs; Legs; Arms; Back; Shoulders; Chest; Cardio; FullBody].

(** The [case] labels of the switch in [parseExercisesCSV], clause by
    clause, with the category each clause assigns. *)
Definition categoryCases : list (list string * Category) :=
  [ (["abs"; "abdominals"; "core"; "stomach"], Abs);
    (["legs"; "leg"; "lower body"; "quads"; "hamstrings"; "calves"], Legs);
    (["arms"; "arm"; "biceps"; "triceps"; "forearms"], Arms);
    (["back"; "lats"; "latissimus"; "rhomboids"; "traps"], Back);
    (["shoulders"; "shoulder"; "delts"; "deltoids"], Shoulders);
    (["chest"; "pecs"; "pectorals"], Chest);
    (["cardio"; "cardiovascular"; "aerobic"; "conditioning"], Cardio);
    (["full-body"; "full body"; "fullbody"; "compound"; "total body"], FullBody) ].

(** The switch on [categoryRaw]: the first clause with a matching label
    decides; [undefined] and unlisted strings take the [default] clause. *)
Definition normalizeCategory (categoryRaw : option string) : Category :=
  match categoryRaw with
  | Some raw =>
      match find (λ clause, existsb (String.eqb raw) clause.1) categoryCases with
      | Some clause => clause.2
      | None => FullBody
      end
  | None => FullBody
  end.

(** ** The exercise importer *)

Record ExerciseCSVRow : Type := {
  row_name : string;
  row_description : option string;
  row_category : Category
}.

(** The predicates handed to [findIndex] for the exercise header. *)
Definition isNameHeader (h : string) : bool :=
  String.eqb h "name" || String.eqb h "exercise" || String.eqb h "exercise_name"
  || includes h "name".

Definition isDescriptionHeader (h : string) : bool :=
  String.eqb h "description" || String.eqb h "desc" || includes h "description".

Definition isCategoryHeader (h : string) : bool :=
  String.eqb h "category" || String.eqb h "type" || String.eqb h "muscle_group"
  || includes h "category".

(** [parseCSVLine(lines[0]).map(h => h.toLowerCase().trim())] *)
Definition headerRow (lines : list string) : list string :=
  map (λ h, trim (toLowerCase h)) (parseCSVLine (default EmptyString (lines !! 0))).

Definition tooFewLines : string :=
  "CSV must have at least a header row and one data row".

(** The message for a missing column of the exercise file. *)
Definition missingExerciseColumn (column : string) (headers : list string) : string :=
  "CSV must have a " ++ dq ++ column ++ dq ++ " column. Found headers: "
  ++ join ", " headers.

(** One turn of the loop over the data lines: the row to push, or [None]
    when the turn ends in [continue]. *)
Definition exerciseRow (nameIndex descriptionIndex categoryIndex : Z) (rawLine : string)
  : option ExerciseCSVRow :=
  let line := trim rawLine in
  if negb (truthy (Some line)) then None else
  let values := parseCSVLine line in
  let name := trim <$> at_index values nameIndex in
  if negb (truthy name) then None else
  let categoryRaw := (λ v, toLowerCase (trim v)) <$> at_index values categoryIndex in
  let category := normalizeCategory categoryRaw in
  let description :=
    if (0 <=? descriptionIndex)%Z then trim <$> at_index values descriptionIndex
    else Some EmptyString in
  Some {| row_name := default EmptyString name;
          row_description := if truthy description then description else None;
          row_category := category |}.

(** The loop over [lines[1..]], with the array [exercises] built so far. *)
Fixpoint exerciseLoop (nameIndex descriptionIndex categoryIndex : Z)
  (dataLines : list string) (exercises : list ExerciseCSVRow) : list ExerciseCSVRow :=
  match dataLines with
  | [] => exercises
  | rawLine :: rest =>
      exerciseLoop nameIndex descriptionIndex categoryIndex rest
        match exerciseRow nameIndex descriptionIndex categoryIndex rawLine with
        | Some row => exercises ++ [row]
        | None => exercises
        end
  end.

Definition parseExercisesCSV (csvContent : string) : Result (list ExerciseCSVRow) :=
  let lines := split LF (trim csvContent) in
  if (length lines <? 2)%nat then Throw tooFewLines else
  let headers := headerRow lines in
  let nameIndex := findIndex isNameHeader headers in
  let descriptionIndex := findIndex isDescriptionHeader headers in
  let categoryIndex := findIndex isCategoryHeader headers in
  if (nameIndex =? -1)%Z then Throw (missingExerciseColumn "name" headers) else
  if (categoryIndex =? -1)%Z then Throw (missingExerciseColumn "category" headers) else
  Ok (exerciseLoop nameIndex descriptionIndex categoryIndex (drop 1 lines) []).

(** [generateExerciseCSVTemplate] and [generateWorkoutCSVTemplate] build
    their text the same way: the header names joined by commas, then each
    example row with every field wrapped in quotes, one per line. *)
Definition templateCSV (headers : list string) (examples : list (list string)) : string :=
  join (String LF EmptyString)
    (join "," headers :: map (λ row, join "," (map (λ field, dq ++ field ++ dq) row)) examples).

Definition generateExerciseCSVTemplate : string :=
  templateCSV ["name"; "category"; "description"]
    [ ["Push-ups"; "arms"; "Standard push-ups for chest and arms"];
      ["Squats"; "legs"; "Bodyweight squats for legs"];
      ["Plank"; "abs"; "Core stability exercise"];
      ["Pull-ups"; "back"; "Upper body pulling exercise"] ].

Definition generateWorkoutCSVTemplate : string :=
  templateCSV
    ["date"; "exerciseName"; "exerciseCategory"; "setNumber"; "reps"; "setNotes"; "workoutNotes"]
    [ ["2024-01-15"; "Push-ups"; "arms"; "1"; "15"; "Felt strong"; "Great morning workout"];
      ["2024-01-15"; "Push-ups"; "arms"; "2"; "12"; "Getting tired"; "Great morning workout"];
      ["2024-01-15"; "Push-ups"; "arms"; "3"; "10"; "Final set"; "Great morning workout"];
      ["2024-01-15"; "Squats"; "legs"; "1"; "20"; "Good form"; "Great morning workout"];
      ["2024-01-15"; "Squats"; "legs"; "2"; "18"; "Legs burning"; "Great morning workout"];
      ["2024-01-16"; "Plank"; "abs"; "1"; "30"; "Held for 30 seconds"; "Quick abs session"];
      ["2024-01-16"; "Plank"; "abs"; "2"; "25"; "Shorter hold"; "Quick abs session"] ].

(** ** The platform *)

(** What the workout importer takes from the JavaScript runtime.
    [newDate s] is [new Date(s)], which never throws and may be an invalid
    date; [getTime d] is [d.getTime()], with [None] for NaN; [now] is
    [new Date()], the clock being read as constant during one call;
    [randomUUID n] is the token returned by call number [n] of
    [crypto.randomUUID()]. *)
Class Platform : Type := {
  JSDate : Type;
  newDate : string → JSDate;
  getTime : JSDate → option Z;
  toDateString : JSDate → string;
  now : JSDate;
  randomUUID : nat → string
}.

(** ** The workout importer *)

(** The predicates handed to [findIndex] for the workout header. *)
Definition isDateHeader (h : string) : bool :=
  String.eqb h "date" || includes h "date".

Definition isExerciseNameHeader (h : string) : bool :=
  String.eqb h "exercisename" || String.eqb h "exercise_name" || String.eqb h "exercise"
  || (includes h "exercise" && includes h "name").

Definition isExerciseCategoryHeader (h : string) : bool :=
  String.eqb h "exercisecategory" || String.eqb h "exercise_category"
  || (includes h "exercise" && includes h "category").

Definition isSetNumberHeader (h : string) : bool :=
  String.eqb h "setnumber" || String.eqb h "set_number" || String.eqb h "set"
  || (includes h "set" && includes h "number").

Definition isRepsHeader (h : string) : bool :=
  String.eqb h "reps" || includes h "reps" || String.eqb h "repetitions".

Definition isSetNotesHeader (h : string) : bool :=
  String.eqb h "setnotes" || String.eqb h "set_notes"
  || (includes h "set" && includes h "notes").

Definition isWorkoutNotesHeader (h : string) : bool :=
  String.eqb h "workoutnotes" || String.eqb h "workout_notes"
  || (includes h "workout" && includes h "notes").

(** The seven column indices found in the header. *)
Record WorkoutColumns : Type := {
  dateIndex : Z;
  exerciseNameIndex : Z;
  exerciseCategoryIndex : Z;
  setNumberIndex : Z;
  repsIndex : Z;
  setNotesIndex : Z;
  workoutNotesIndex : Z
}.

Definition workoutColumns (headers : list string) : WorkoutColumns :=
  {| dateIndex := findIndex isDateHeader headers;
     exerciseNameIndex := findIndex isExerciseNameHeader headers;
     exerciseCategoryIndex := findIndex isExerciseCategoryHeader headers;
     setNumberIndex := findIndex isSetNumberHeader headers;
     repsIndex := findIndex isRepsHeader headers;
     setNotesIndex := findIndex isSetNotesHeader headers;
     workoutNotesIndex := findIndex isWorkoutNotesHeader headers |}.

(** The messages of the workout importer. *)
Definition missingDateColumn : string :=
  "CSV must have a " ++ dq ++ "date" ++ dq ++ " column".
Definition missingExerciseNameColumn : string :=
  "CSV must have an " ++ dq ++ "exerciseName" ++ dq ++ " column".
Definition missingRepsColumn : string :=
  "CSV must have a " ++ dq ++ "reps" ++ dq ++ " column".
Definition missingSetNumberColumn : string :=
  "CSV must have a " ++ dq ++ "setNumber" ++ dq
  ++ " column for proper set position tracking".

(** The end of the three row messages: the loop index plus one. *)
Definition onLine (i : nat) : string := " on line " ++ showNat (i + 1).

Definition invalidDate (dateStr : string) (i : nat) : string :=
  "Invalid date " ++ dq ++ dateStr ++ dq ++ onLine i.
Definition invalidReps (repsStr : string) (i : nat) : string :=
  "Invalid reps " ++ dq ++ repsStr ++ dq ++ onLine i.
Definition invalidSetNumber (setNumberStr : string) (i : nat) : string :=
  "Invalid set number " ++ dq ++ setNumberStr ++ dq ++ onLine i
  ++ ". Set number must be 1 or greater.".

(** A string that is truthy, or nothing. *)
Definition nonEmpty (v : option string) : option string :=
  if truthy v then v else None.

(** The four required cells of a row, each trimmed; [None] when the row is
    skipped as incomplete. *)
Definition requiredCells (cols : WorkoutColumns) (values : list string)
  : option (string * string * string * string) :=
  match nonEmpty (trim <$> at_index values (dateIndex cols)),
        nonEmpty (trim <$> at_index values (exerciseNameIndex cols)),
        nonEmpty (trim <$> at_index values (repsIndex cols)),
        nonEmpty (trim <$> at_index values (setNumberIndex cols)) with
  | Some dateStr, Some exerciseName, Some repsStr, Some setNumberStr =>
      Some (dateStr, exerciseName, repsStr, setNumberStr)
  | _, _, _, _ => None
  end.

(** The category given to an exercise created by the workout importer. *)
Definition newExerciseCategory (cols : WorkoutColumns) (values : list string) : Category :=
  if (0 <=? exerciseCategoryIndex cols)%Z then
    let categoryRaw :=
      (λ v, toLowerCase (trim v)) <$> at_index values (exerciseCategoryIndex cols) in
    match categoryRaw with
    | Some raw =>
        default FullBody (find (λ c, String.eqb (categoryName c) raw) validCategories)
    | None => FullBody
    end
  else FullBody.

Section WorkoutImporter.

Context `{Platform}.

(** Modelled from the spec: the module [../types], which declares
    [Exercise], [Workout] and [WorkoutSet], is not among the sources.  The
    fields are those of section 3 of the specification, which are the ones
    [parseWorkoutsCSV] fills. *)
Record Exercise : Type := {
  ex_id : string;
  ex_name : string;
  ex_category : Category;
  ex_description : option string;
  ex_createdAt : JSDate
}.

(** Modelled from the spec: [WorkoutSet] of [../types], with the fields of
    section 3 of the specification. *)
Record WorkoutSet : Type := {
  set_id : string;
  set_exerciseId : string;
  set_reps : Z;
  set_notes : option string
}.

(** Modelled from the spec: [Workout] of [../types], with the fields of
    section 3 of the specification.  The date is the [Date] object built
    from the day key, valid or not. *)
Record Workout : Type := {
  wk_id : string;
  wk_date : JSDate;
  wk_sets : list WorkoutSet;
  wk_notes : option string
}.

(** [Omit<WorkoutSet, 'id'>] *)
Record SetFields : Type := {
  sf_exerciseId : string;
  sf_reps : Z;
  sf_notes : option string
}.

(** The records pushed onto a day's [sets] while the rows are read. *)
Record SetEntry : Type := {
  e_exerciseId : string;
  e_reps : Z;
  e_notes : option string;
  e_setNumber : Z;
  e_exerciseName : string
}.

(** The value stored in [workoutMap] for one day. *)
Record DayData : Type := {
  day_sets : list SetEntry;
  day_notes : option string
}.

(** *** Objects and references

    [Exercise] objects live in a heap and are held by reference, as in
    JavaScript: the caller's array, [exerciseMap] and [newExercises] hold
    addresses, so that an assignment to a field of a catalog record, or to
    a slot of the caller's array, would be visible in the world after the
    call.  An address is a position in the heap. *)
Definition addr : Type := nat.

Record World : Type := {
  exercises : list addr;   (* the array passed as the argument [exercises] *)
  heap : list Exercise;    (* the Exercise objects allocated so far *)
  uuidCalls : nat          (* the number of calls of crypto.randomUUID so far *)
}.

#[export] Instance Exercise_inhabited : Inhabited Exercise :=
  populate {| ex_id := EmptyString; ex_name := EmptyString; ex_category := FullBody;
              ex_description := None; ex_createdAt := now |}.

(** The object behind a reference.  References handed out by [allocate]
    and references of a well-formed catalog always point into the heap. *)
Definition deref (w : World) (a : addr) : Exercise := heap w !!! a.

(** [crypto.randomUUID()] *)
Definition freshUUID (w : World) : string * World :=
  (randomUUID (uuidCalls w),
   {| exercises := exercises w; heap := heap w; uuidCalls := S (uuidCalls w) |}).

(** The creation of an object: a new cell at the end of the heap. *)
Definition allocate (ex : Exercise) (w : World) : addr * World :=
  (length (heap w),
   {| exercises := exercises w; heap := heap w ++ [ex]; uuidCalls := uuidCalls w |}).

(** The local variables of [parseWorkoutsCSV] that the loop changes. *)
Record Locals : Type := {
  workoutMap : OMap.t DayData;
  exerciseMap : gmap string addr;
  newExercises : list addr
}.

(** [new Map(exercises.map(ex => [ex.name.toLowerCase(), ex]))]: entries are
    set in array order, a later one replacing an earlier one with its key. *)
Definition catalogMap (w : World) : gmap string addr :=
  foldl (λ m a, <[toLowerCase (ex_name (deref w a)) := a]> m) ∅ (exercises w).

(** Find or create exercise: the reference to the exercise of the row, with
    the locals and the world after a possible creation. *)
Definition findOrCreateExercise (cols : WorkoutColumns) (values : list string)
    (exerciseName : string) (st : Locals) (w : World) : addr * Locals * World :=
  match exerciseMap st !! toLowerCase exerciseName with
  | Some exercise => (exercise, st, w)
  | None =>
      let category := newExerciseCategory cols values in
      let '(id, w1) := freshUUID w in
      let '(exercise, w2) :=
        allocate {| ex_id := id; ex_name := exerciseName; ex_category := category;
                    ex_description := None; ex_createdAt := now |} w1 in
      (exercise,
       {| workoutMap := workoutMap st;
          exerciseMap := <[toLowerCase exerciseName := exercise]> (exerciseMap st);
          newExercises := newExercises st ++ [exercise] |},
       w2)
  end.

(** Group by date: the set is pushed onto the day's [sets], the day being
    created first if it is new, and the day's notes are filled once. *)
Definition recordSet (cols : WorkoutColumns) (values : list string)
    (dateKey : string) (set : SetEntry) (workoutMap : OMap.t DayData) : OMap.t DayData :=
  let workoutMap1 :=
    if OMap.has workoutMap dateKey then workoutMap
    else OMap.set workoutMap dateKey {| day_sets := []; day_notes := None |} in
  let workoutMap2 :=
    OMap.update workoutMap1 dateKey
      (λ workout, {| day_sets := (day_sets workout ++ [set])%list;
                     day_notes := day_notes workout |}) in
  if (0 <=? workoutNotesIndex cols)%Z then
    let workoutNotes := trim <$> at_index values (workoutNotesIndex cols) in
    OMap.update workoutMap2 dateKey
      (λ workout,
         if truthy workoutNotes && negb (truthy (day_notes workout))
         then {| day_sets := day_sets workout; day_notes := workoutNotes |}
         else workout)
  else workoutMap2.

(** One turn of the loop over the data lines, [i] being the loop index.  The
    world is returned with a thrown error too: what was allocated before a
    throw stays allocated. *)
Definition processRow (cols : WorkoutColumns) (i : nat) (rawLine : string)
    (st : Locals) (w : World) : Result Locals * World :=
  let line := trim rawLine in
  if negb (truthy (Some line)) then (Ok st, w) else
  let values := parseCSVLine line in
  match requiredCells cols values with
  | None => (Ok st, w)
  | Some (dateStr, exerciseName, repsStr, setNumberStr) =>
      let date := newDate dateStr in
      match getTime date with
      | None => (Throw (invalidDate dateStr i), w)
      | Some _ =>
          match parseInt repsStr with
          | None => (Throw (invalidReps repsStr i), w)
          | Some reps =>
              if (reps <? 0)%Z then (Throw (invalidReps repsStr i), w) else
              match parseInt setNumberStr with
              | None => (Throw (invalidSetNumber setNumberStr i), w)
              | Some setNumber =>
                  if (setNumber <? 1)%Z then (Throw (invalidSetNumber setNumberStr i), w) else
                  let '(exercise, st1, w1) :=
                    findOrCreateExercise cols values exerciseName st w in
                  let set :=
                    {| e_exerciseId := ex_id (deref w1 exercise);
                       e_reps := reps;
                       e_notes := if (0 <=? setNotesIndex cols)%Z
                                  then trim <$> at_index values (setNotesIndex cols)
                                  else None;
                       e_setNumber := setNumber;
                       e_exerciseName := exerciseName |} in
                  (Ok {| workoutMap :=
                           recordSet cols values (toDateString date) set (workoutMap st1);
                         exerciseMap := exerciseMap st1;
                         newExercises := newExercises st1 |},
                   w1)
              end
          end
      end
  end.

(** The loop [for (let i = 1; i < lines.length; i++)] over the lines that
    remain; a throw ends it. *)
Fixpoint processRows (cols : WorkoutColumns) (i : nat) (dataLines : list string)
    (st : Locals) (w : World) : Result Locals * World :=
  match dataLines with
  | [] => (Ok st, w)
  | rawLine :: rest =>
      match processRow cols i rawLine st w with
      | (Ok st', w') => processRows cols (S i) rest st' w'
      | (Throw message, w') => (Throw message, w')
      end
  end.

(** *** Ordering the sets of a day *)

(** One turn of the first [forEach]: the set is pushed onto the array stored
    under its [exerciseName], the array being created first if the name is
    new. *)
Definition groupStep (exerciseGroups : OMap.t (list SetEntry)) (set : SetEntry)
  : OMap.t (list SetEntry) :=
  let groups :=
    if OMap.has exerciseGroups (e_exerciseName set) then exerciseGroups
    else OMap.set exerciseGroups (e_exerciseName set) [] in
  OMap.update groups (e_exerciseName set) (λ group, (group ++ [set])%list).

(** The map [exerciseGroups] after the first [forEach]. *)
Definition groupByExercise (sets : list SetEntry) : OMap.t (list SetEntry) :=
  foldl groupStep [] sets.

(** [exerciseSets.sort((a, b) => a.setNumber - b.setNumber)].  The sort of an
    array is stable, and the comparator orders by [setNumber]: each set is
    inserted behind the sets whose number is not larger. *)
Fixpoint insertBySetNumber (set : SetEntry) (sorted : list SetEntry) : list SetEntry :=
  match sorted with
  | [] => [set]
  | other :: rest =>
      if (e_setNumber set <? e_setNumber other)%Z then set :: sorted
      else other :: insertBySetNumber set rest
  end.

Definition sortBySetNumber (exerciseSets : list SetEntry) : list SetEntry :=
  foldl (λ sorted set, insertBySetNumber set sorted) [] exerciseSets.

Definition stripSet (set : SetEntry) : SetFields :=
  {| sf_exerciseId := e_exerciseId set; sf_reps := e_reps set; sf_notes := e_notes set |}.

(** The array [orderedSets]: the groups in the order of the map, each one
    sorted and stripped of [setNumber] and [exerciseName]. *)
Definition orderedSets (sets : list SetEntry) : list SetFields :=
  flat_map (λ exerciseSets, map stripSet (sortBySetNumber exerciseSets))
           (OMap.values (groupByExercise sets)).

(** [orderedSets.map(set => ({ ...set, id: crypto.randomUUID() }))] *)
Fixpoint assignSetIds (sets : list SetFields) (w : World) : list WorkoutSet * World :=
  match sets with
  | [] => ([], w)
  | set :: rest =>
      let '(id, w1) := freshUUID w in
      let '(rest', w2) := assignSetIds rest w1 in
      ({| set_id := id; set_exerciseId := sf_exerciseId set;
          set_reps := sf_reps set; set_notes := sf_notes set |} :: rest', w2)
  end.

(** The workout object built for one entry of [workoutMap]. *)
Definition buildWorkout (entry : string * DayData) (w : World) : Workout * World :=
  let '(dateStr, data) := entry in
  let '(id, w1) := freshUUID w in
  let '(sets, w2) := assignSetIds (orderedSets (day_sets data)) w1 in
  ({| wk_id := id; wk_date := newDate dateStr; wk_sets := sets;
      wk_notes := day_notes data |}, w2).

(** [Array.from(workoutMap.entries()).map(...)] *)
Fixpoint buildWorkouts (entries : list (string * DayData)) (w : World)
  : list Workout * World :=
  match entries with
  | [] => ([], w)
  | entry :: rest =>
      let '(workout, w1) := buildWorkout entry w in
      let '(workouts, w2) := buildWorkouts rest w1 in
      (workout :: workouts, w2)
  end.

(** The object returned by [parseWorkoutsCSV]. *)
Record Imported : Type := {
  workouts : list Workout;
  imported_newExercises : list addr
}.

Definition parseWorkoutsCSV (csvContent : string) (w : World) : Result Imported * World :=
  let lines := split LF (trim csvContent) in
  if (length lines <? 2)%nat then (Throw tooFewLines, w) else
  let headers := headerRow lines in
  let cols := workoutColumns headers in
  if (dateIndex cols =? -1)%Z then (Throw missingDateColumn, w) else
  if (exerciseNameIndex cols =? -1)%Z then (Throw missingExerciseNameColumn, w) else
  if (repsIndex cols =? -1)%Z then (Throw missingRepsColumn, w) else
  if (setNumberIndex cols =? -1)%Z then (Throw missingSetNumberColumn, w) else
  match processRows cols 1 (drop 1 lines)
          {| workoutMap := []; exerciseMap := catalogMap w; newExercises := [] |} w with
  | (Throw message, w1) => (Throw message, w1)
  | (Ok st, w1) =>
      let '(workouts, w2) := buildWorkouts (workoutMap st) w1 in
      (Ok {| workouts := workouts; imported_newExercises := newExercises st |}, w2)
  end.

End WorkoutImporter.

(** ** A reference platform

    One platform on which the importer can be run: the time zone is UTC,
    [Date] understands the date-only form YYYY-MM-DD and the form printed by
    [toDateString] and nothing else, and the n-th identifier is the text
    [uuid-n].  A date is the number of days since 1970-01-01, or nothing
    when it is invalid.  The general results below do not depend on it. *)
Module ReferencePlatform.

Definition allDigits (s : string) : bool :=
  allChars (λ c, (48 <=? code c)%nat && (code c <=? 57)%nat) s.

(** The value of a string of decimal digits of the given length. *)
Definition decimal (len : nat) (s : string) : option Z :=
  if (String.length s =? len)%nat && allDigits s then parseInt s else None.

Definition isLeap (y : Z) : bool :=
  ((y mod 4 =? 0) && (negb (y mod 100 =? 0) || (y mod 400 =? 0)))%Z.

Definition daysInMonth (y m : Z) : Z :=
  (if m =? 2 then (if isLeap y then 29 else 28)
   else if (m =? 4) || (m =? 6) || (m =? 9) || (m =? 11) then 30 else 31)%Z.

(** Days from 1970-01-01 to the given day of the civil calendar. *)
Definition daysFromCivil (y m d : Z) : Z :=
  (let y' := if m <=? 2 then y - 1 else y in
   let era := y' / 400 in
   let yoe := y' - era * 400 in
   let doy := (153 * (if 2 <? m then m - 3 else m + 9) + 2) / 5 + d - 1 in
   let doe := yoe * 365 + yoe / 4 - yoe / 100 + doy in
   era * 146097 + doe - 719468)%Z.

(** The civil day that lies the given number of days after 1970-01-01. *)
Definition civilFromDays (days : Z) : Z * Z * Z :=
  (let z := days + 719468 in
   let era := z / 146097 in
   let doe := z - era * 146097 in
   let yoe := (doe - doe / 1460 + doe / 36524 - doe / 146096) / 365 in
   let doy := doe - (365 * yoe + yoe / 4 - yoe / 100) in
   let mp := (5 * doy + 2) / 153 in
   let d := doy - (153 * mp + 2) / 5 + 1 in
   let m := if mp <? 10 then mp + 3 else mp - 9 in
   (if m <=? 2 then yoe + era * 400 + 1 else yoe + era * 400, m, d))%Z.

Definition civil (y m d : option Z) : option Z :=
  match y, m, d with
  | Some y, Some m, Some d =>
      if ((1 <=? m) && (m <=? 12) && (1 <=? d) && (d <=? daysInMonth y m))%Z
      then Some (daysFromCivil y m d) else None
  | _, _, _ => None
  end.

Definition weekDays : list string := ["Sun"; "Mon"; "Tue"; "Wed"; "Thu"; "Fri"; "Sat"].
Definition months : list string :=
  ["Jan"; "Feb"; "Mar"; "Apr"; "May"; "Jun"; "Jul"; "Aug"; "Sep"; "Oct"; "Nov"; "Dec"].

Definition indexOf (names : list string) (name : string) : option Z :=
  let i := findIndex (String.eqb name) names in
  if (i <? 0)%Z then None else Some i.

Definition parseDate (s : string) : option Z :=
  match split "-" s, split " " s with
  | [y; m; d], _ => civil (decimal 4 y) (decimal 2 m) (decimal 2 d)
  | _, [wd; mon; d; y] =>
      if existsb (String.eqb wd) weekDays
      then civil (decimal 4 y) ((λ i, (i + 1)%Z) <$> indexOf months mon) (decimal 2 d)
      else None
  | _, _ => None
  end.

Definition pad (width : nat) (n : Z) : string :=
  let digits := showNat (Z.to_nat n) in
  String.concat EmptyString (replicate (width - String.length digits) "0") ++ digits.

Definition printDate (date : option Z) : string :=
  match date with
  | None => "Invalid Date"
  | Some days =>
      let '(y, m, d) := civilFromDays days in
      default EmptyString (weekDays !! Z.to_nat ((days + 4) mod 7)) ++ " "
      ++ default EmptyString (months !! Z.to_nat (m - 1)) ++ " "
      ++ pad 2 d ++ " " ++ pad 4 y
  end.

#[export] Instance platform : Platform := {|
  JSDate := option Z;
  newDate := parseDate;
  getTime := λ date, (λ days, (days * 86400000)%Z) <$> date;
  toDateString := printDate;
  now := Some 0%Z;
  randomUUID := λ n, "uuid-" ++ showNat n
|}.

(** A world with the given catalog and nothing else. *)
Definition worldOf (catalog : list Exercise) : World :=
  {| exercises := seq 0 (length catalog); heap := catalog; uuidCalls := 0 |}.

End ReferencePlatform.

(** * The vocabulary of the properties *)

(** ** Headers, categories, cells and numbers *)

(** A role of a header: the predicate the importer hands to [findIndex],
    the names it compares with exactly, and its test on substrings. *)
Record Role : Type := {
  matches : string → bool;
  candidates : list string;
  marker : string → bool
}.

(** The name role of the exercise header. *)
Definition nameRole : Role :=
  {| matches := isNameHeader;
     candidates := ["name"; "exercise"; "exercise_name"];
     marker := λ h, includes h "name" |}.

(** The three roles of the exercise header and the seven roles of the
    workout header. *)
Definition roles : list Role :=
  [ nameRole;
    {| matches := isDescriptionHeader;
       candidates := ["description"; "desc"];
       marker := λ h, includes h "description" |};
    {| matches := isCategoryHeader;
       candidates := ["category"; "type"; "muscle_group"];
       marker := λ h, includes h "category" |};
    {| matches := isDateHeader;
       candidates := ["date"];
       marker := λ h, includes h "date" |};
    {| matches := isExerciseNameHeader;
       candidates := ["exercisename"; "exercise_name"; "exercise"];
       marker := λ h, includes h "exercise" && includes h "name" |};
    {| matches := isExerciseCategoryHeader;
       candidates := ["exercisecategory"; "exercise_category"];
       marker := λ h, includes h "exercise" && includes h "category" |};
    {| matches := isSetNumberHeader;
       candidates := ["setnumber"; "set_number"; "set"];
       marker := λ h, includes h "set" && includes h "number" |};
    {| matches := isRepsHeader;
       candidates := ["reps"; "repetitions"];
       marker := λ h, includes h "reps" |};
    {| matches := isSetNotesHeader;
       candidates := ["setnotes"; "set_notes"];
       marker := λ h, includes h "set" && includes h "notes" |};
    {| matches := isWorkoutNotesHeader;
       candidates := ["workoutnotes"; "workout_notes"];
       marker := λ h, includes h "workout" && includes h "notes" |} ].

(** The resolution in two passes that the specification describes: every
    exact candidate, in order, is looked for in the whole row, and only when
    none is found is the first header that passes the substring test taken. *)
Definition resolveExactFirst (role : Role) (headers : list string) : Z :=
  match find (λ i, (0 <=? i)%Z)
             (map (λ c, findIndex (String.eqb c) headers) (candidates role)) with
  | Some i => i
  | None => findIndex (marker role) headers
  end.

(** [i] is the first position of [arr] whose element satisfies [p]. *)
Definition firstMatch {A} (p : A → bool) (arr : list A) (i : nat) : Prop :=
  (∃ x, arr !! i = Some x ∧ p x = true) ∧
  ∀ j y, (j < i)%nat → arr !! j = Some y → p y = false.

(** Every label of the switch. *)
Definition categoryLabels : list string := concat (categoryCases.*1).

(** The cells of a data line, as both loops compute them. *)
Definition cellsOf (rawLine : string) : list string := parseCSVLine (trim rawLine).

(** The row has no cell at the index. *)
Definition missingCell (values : list string) (index : Z) : Prop :=
  (Z.of_nat (length values) <= index)%Z.

(** The cell of the exercise category column, trimmed and in lower case;
    nothing when the header has no such column or the row has no such
    cell. *)
Definition categoryCell (cols : WorkoutColumns) (values : list string) : option string :=
  if (0 <=? exerciseCategoryIndex cols)%Z
  then (λ v, toLowerCase (trim v)) <$> at_index values (exerciseCategoryIndex cols)
  else None.

(** The decimal digits. *)
Definition isDigit (c : ascii) : bool := ((48 <=? code c) && (code c <=? 57))%nat.

(** The value of a run of decimal digits, continuing from [acc]. *)
Fixpoint decimalValue (digits : string) (acc : Z) : Z :=
  match digits with
  | EmptyString => acc
  | String c rest => decimalValue rest (acc * 10 + (Z.of_nat (code c) - 48))%Z
  end.

(** What the specification means by a cell that denotes an integer: an
    optional sign, then one or more decimal digits, and nothing else.  The
    result is the integer written, or nothing for any other string. *)
Definition denotedInteger (s : string) : option Z :=
  let '(sign, digits) := readSign s in
  match digits with
  | EmptyString => None
  | String _ _ =>
      if allChars isDigit digits then Some (sign * decimalValue digits 0)%Z else None
  end.

(** The test the importer applies to the reps: [parseInt] gives a number
    that is not negative. *)
Definition acceptsReps (repsStr : string) : bool :=
  match parseInt repsStr with
  | Some reps => negb (reps <? 0)%Z
  | None => false
  end.

(** The test the importer applies to the set number: [parseInt] gives a
    number that is at least 1. *)
Definition acceptsSetNumber (setNumberStr : string) : bool :=
  match parseInt setNumberStr with
  | Some setNumber => negb (setNumber <? 1)%Z
  | None => false
  end.

(** The sum of a measure over the values of an ordered map. *)
Definition measure {V} (size : V → nat) (m : OMap.t V) : nat :=
  sum_list (map (λ kv, size kv.2) m).

(** The distinct names of a list, each at its first occurrence. *)
Fixpoint firstSeen (names : list string) : list string :=
  match names with
  | [] => []
  | name :: rest => name :: filter (λ other, other ≠ name) (firstSeen rest)
  end.

(** The text made of the given lines. *)
Definition linesOf (lines : list string) : string := join (String LF EmptyString) lines.

(** ** Worlds, days and sets *)

Section Vocabulary.

Context `{Platform}.

(** The world of a caller with an empty catalog. *)
Definition emptyWorld : World := {| exercises := []; heap := []; uuidCalls := 0 |}.

(** The locals at the start of the loop for an empty catalog. *)
Definition noLocals : Locals := {| workoutMap := []; exerciseMap := ∅; newExercises := [] |}.

(** What a call may do to the world: the caller's array is as it was, and
    the heap is as it was with new objects behind it, so that every object
    that existed keeps its address and its fields. *)
Definition extends (w w' : World) : Prop :=
  exercises w' = exercises w ∧ ∃ created, heap w' = (heap w ++ created)%list.

(** What the loop maintains, [w0] being the world at the call: the caller's
    array is untouched, the heap is the heap of [w0] followed by the created
    exercises, and [newExercises] lists their addresses in the order of
    creation. *)
Definition loopInvariant (w0 : World) (st : Locals) (w : World) : Prop :=
  exercises w = exercises w0 ∧
  ∃ created, heap w = (heap w0 ++ created)%list ∧
             newExercises st = seq (length (heap w0)) (length created).

(** The number of sets recorded for a day. *)
Definition setsOfDay (data : DayData) : nat := length (day_sets data).

(** The number of sets in the returned workouts. *)
Definition totalSets (workouts : list Workout) : nat :=
  sum_list (map (λ workout, length (wk_sets workout)) workouts).

(** The rows that give a set: not blank after trimming, with the four
    required cells not empty, a valid date, and reps and a set number that
    pass the tests of the importer. *)
Definition rowCounts (cols : WorkoutColumns) (rawLine : string) : bool :=
  truthy (Some (trim rawLine)) &&
  match requiredCells cols (cellsOf rawLine) with
  | Some (dateStr, _, repsStr, setNumberStr) =>
      bool_decide (is_Some (getTime (newDate dateStr)))
      && acceptsReps repsStr && acceptsSetNumber setNumberStr
  | None => false
  end.

(** What the two mutations of [recordSet] do to the day they reach. *)
Definition addToDay (cols : WorkoutColumns) (values : list string) (set : SetEntry)
    (workout : DayData) : DayData :=
  let pushed := {| day_sets := (day_sets workout ++ [set])%list;
                   day_notes := day_notes workout |} in
  if (0 <=? workoutNotesIndex cols)%Z then
    if truthy (trim <$> at_index values (workoutNotesIndex cols))
       && negb (truthy (day_notes pushed))
    then {| day_sets := day_sets pushed;
            day_notes := trim <$> at_index values (workoutNotesIndex cols) |}
    else pushed
  else pushed.

(** The sets of a list that carry the given exercise name, in their order. *)
Definition setsNamed (name : string) (sets : list SetEntry) : list SetEntry :=
  filter (λ set, e_exerciseName set = name) sets.

(** The sets of a list that carry the given set number, in their order. *)
Definition setsNumbered (n : Z) (sets : list SetEntry) : list SetEntry :=
  filter (λ set, e_setNumber set = n) sets.

(** The order of the sort: by set number. *)
Definition bySetNumber (a b : SetEntry) : Prop := (e_setNumber a <= e_setNumber b)%Z.

(** The sort, started from a list that is already sorted. *)
Definition sortInto (sorted exerciseSets : list SetEntry) : list SetEntry :=
  foldl (λ sorted set, insertBySetNumber set sorted) sorted exerciseSets.

(** The groups by name: the names in the order of their first occurrence,
    each with the sets that carry it, in their order. *)
Definition groupsOf (sets : list SetEntry) : OMap.t (list SetEntry) :=
  (λ name, (name, setsNamed name sets)) <$> firstSeen (e_exerciseName <$> sets).

End Vocabulary.

(** * Properties *)

(** ** Header resolution *)

Lemma findIndexFrom_spec {A} (p : A → bool) (arr : list A) (i : Z) :
  (findIndexFrom p arr i = (-1)%Z ∧ Forall (λ x, p x = false) arr) ∨
  (∃ n, findIndexFrom p arr i = (i + Z.of_nat n)%Z ∧ firstMatch p arr n).
Proof.
  revert i. induction arr as [|x rest IH]; intros i; simpl.
  - left. split; [reflexivity | constructor].
  - destruct (p x) eqn:Hx.
    + right. exists 0%nat. split; [lia|]. split.
      * exists x. split; [reflexivity | assumption].
      * intros j y Hj. lia.
    + destruct (IH (i + 1)%Z) as [[Hnone Hall] | [n [Hn [[y [Hy Hpy]] Hfirst]]]].
      * left. split; [assumption | constructor; assumption].
      * right. exists (S n). split; [lia|]. split.
        -- exists y. split; assumption.
        -- intros [|j] z Hj Hz; simpl in Hz.
           ++ congruence.
           ++ apply (Hfirst j); [lia | assumption].
Qed.

Lemma findIndex_spec {A} (p : A → bool) (arr : list A) :
  (findIndex p arr = (-1)%Z ∧ Forall (λ x, p x = false) arr) ∨
  (∃ n, findIndex p arr = Z.of_nat n ∧ firstMatch p arr n).
Proof.
  unfold findIndex. destruct (findIndexFrom_spec p arr 0%Z) as [Hnone | [n [Hn Hfirst]]].
  - left. assumption.
  - right. exists n. split; [lia | assumption].
Qed.

Lemma role_matches (role : Role) (h : string) :
  role ∈ roles →
  matches role h = existsb (String.eqb h) (candidates role) || marker role h.
Proof.
  unfold roles. rewrite !elem_of_cons, elem_of_nil.
  intros Hrole.
  repeat (destruct Hrole as [-> | Hrole]); try contradiction; simpl;
    unfold isNameHeader, isDescriptionHeader, isCategoryHeader, isDateHeader,
      isExerciseNameHeader, isExerciseCategoryHeader, isSetNumberHeader,
      isRepsHeader, isSetNotesHeader, isWorkoutNotesHeader;
    repeat match goal with |- context [String.eqb h ?c] => destruct (String.eqb h c) end;
    simpl; try reflexivity;
    repeat match goal with |- context [includes h ?c] => destruct (includes h c) end;
    reflexivity.
Qed.

(** C3, as amended.  Every role is resolved in one pass from left to right:
    a header matches the role when it equals one of the role's exact names
    or passes the role's substring test, and the index found is that of the
    first header that matches, or -1 when no header does.  An exact match
    further right does not take precedence. *)
Theorem header_roles_first_match (role : Role) (headers : list string) :
  role ∈ roles →
  (∀ h, matches role h = existsb (String.eqb h) (candidates role) || marker role h) ∧
  ((findIndex (matches role) headers = (-1)%Z ∧
    Forall (λ h, matches role h = false) headers) ∨
   (∃ n, findIndex (matches role) headers = Z.of_nat n ∧
         firstMatch (matches role) headers n)).
Proof.
  intros Hrole. split.
  - intros h. apply role_matches. assumption.
  - apply findIndex_spec.
Qed.

Lemma nameRole_in_roles : nameRole ∈ roles.
Proof. unfold roles. apply elem_of_cons. left. reflexivity. Qed.

Lemma header_roles_first_match_witness :
  let headers := ["username"; "name"; "category"] in
  nameRole ∈ roles ∧
  (∀ h, matches nameRole h
        = existsb (String.eqb h) (candidates nameRole) || marker nameRole h) ∧
  ((findIndex (matches nameRole) headers = (-1)%Z ∧
    Forall (λ h, matches nameRole h = false) headers) ∨
   (∃ n, findIndex (matches nameRole) headers = Z.of_nat n ∧
         firstMatch (matches nameRole) headers n)).
Proof.
  split.
  - apply nameRole_in_roles.
  - apply (header_roles_first_match nameRole ["username"; "name"; "category"]).
    apply nameRole_in_roles.
Defined.

(** C3, as stated, fails: in the header row [username, name, category] the
    second header equals the candidate [name] and the first only contains
    it, and the importer resolves the name role to the first. *)
Lemma header_exact_match_not_preferred :
  let headers := ["username"; "name"; "category"] in
  resolveExactFirst nameRole headers = 1%Z ∧
  findIndex (matches nameRole) headers = 0%Z ∧
  parseExercisesCSV
    (join (String LF EmptyString) ["username,name,category"; "bob,Plank,core"])
  = Ok [{| row_name := "bob"; row_description := None; row_category := Abs |}].
Proof. vm_compute. repeat split. Qed.

(** ** Category normalization *)

Lemma normalizeCategory_label (labels : list string) (c : Category) (label : string) :
  (labels, c) ∈ categoryCases → label ∈ labels → normalizeCategory (Some label) = c.
Proof.
  unfold categoryCases. rewrite !elem_of_cons, elem_of_nil. intros Hclause.
  repeat (destruct Hclause as [Heq | Hclause]); try contradiction;
    injection Heq as -> ->; rewrite !elem_of_cons, elem_of_nil; intros Hlabel;
    repeat (destruct Hlabel as [-> | Hlabel]); try contradiction; reflexivity.
Qed.

Lemma normalizeCategory_canonical (c : Category) :
  normalizeCategory (Some (categoryName c)) = c.
Proof. destruct c; reflexivity. Qed.

Lemma existsb_eqb_false (s : string) (labels : list string) :
  s ∉ labels → existsb (String.eqb s) labels = false.
Proof.
  induction labels as [|l rest IH]; intros Hnot; simpl.
  - reflexivity.
  - rewrite not_elem_of_cons in Hnot. destruct Hnot as [Hne Hrest].
    apply String.eqb_neq in Hne. rewrite Hne. simpl. apply IH. assumption.
Qed.

Lemma normalizeCategory_unlisted (s : string) :
  s ∉ categoryLabels → normalizeCategory (Some s) = FullBody.
Proof.
  unfold categoryLabels, normalizeCategory.
  generalize categoryCases. intros cases.
  induction cases as [|[labels c] rest IH]; intros Hnot; simpl.
  - reflexivity.
  - simpl in Hnot. rewrite not_elem_of_app in Hnot. destruct Hnot as [Hhere Hrest].
    rewrite (existsb_eqb_false s labels Hhere). apply IH. assumption.
Qed.

(** C5.  The switch on the raw category is a total function into the eight
    categories.  Every label of the switch is sent to the category of its
    clause, among them the documented synonyms; each of the eight canonical
    names is sent to its own category; normalizing the name of a result
    gives the same result; and [undefined] and every string that is not a
    label are sent to full-body. *)
Theorem category_normalization :
  (∀ labels c label,
     (labels, c) ∈ categoryCases → label ∈ labels → normalizeCategory (Some label) = c) ∧
  (normalizeCategory (Some "core") = Abs ∧ normalizeCategory (Some "stomach") = Abs ∧
   normalizeCategory (Some "quads") = Legs ∧ normalizeCategory (Some "biceps") = Arms ∧
   normalizeCategory (Some "lats") = Back ∧ normalizeCategory (Some "traps") = Back ∧
   normalizeCategory (Some "delts") = Shoulders ∧ normalizeCategory (Some "pecs") = Chest ∧
   normalizeCategory (Some "aerobic") = Cardio ∧
   normalizeCategory (Some "compound") = FullBody) ∧
  (∀ c, normalizeCategory (Some (categoryName c)) = c) ∧
  (∀ raw, normalizeCategory (Some (categoryName (normalizeCategory raw)))
          = normalizeCategory raw) ∧
  (∀ s, s ∉ categoryLabels → normalizeCategory (Some s) = FullBody) ∧
  normalizeCategory None = FullBody.
Proof.
  split; [exact normalizeCategory_label|].
  split; [repeat split|].
  split; [exact normalizeCategory_canonical|].
  split; [intros raw; apply normalizeCategory_canonical|].
  split; [exact normalizeCategory_unlisted | reflexivity].
Qed.

Lemma existsb_eqb_false_inv (s : string) (labels : list string) :
  existsb (String.eqb s) labels = false → s ∉ labels.
Proof.
  induction labels as [|l rest IH]; simpl; intros Hnone.
  - apply not_elem_of_nil.
  - apply orb_false_iff in Hnone. destruct Hnone as [Hne Hrest].
    apply not_elem_of_cons. split.
    + apply String.eqb_neq. assumption.
    + apply IH. assumption.
Qed.

Lemma yoga_unlisted : "yoga" ∉ categoryLabels.
Proof. apply existsb_eqb_false_inv. reflexivity. Qed.

Lemma category_normalization_witness :
  ((["abs"; "abdominals"; "core"; "stomach"], Abs) ∈ categoryCases ∧
   "core" ∈ ["abs"; "abdominals"; "core"; "stomach"] ∧
   normalizeCategory (Some "core") = Abs) ∧
  (("yoga" ∉ categoryLabels) ∧ normalizeCategory (Some "yoga") = FullBody).
Proof.
  destruct category_normalization as [Hlabel [_ [_ [_ [Hunlisted _]]]]].
  assert (Hclause : (["abs"; "abdominals"; "core"; "stomach"], Abs) ∈ categoryCases)
    by (unfold categoryCases; apply elem_of_cons; left; reflexivity).
  assert (Hcore : "core" ∈ ["abs"; "abdominals"; "core"; "stomach"])
    by (rewrite !elem_of_cons; right; right; left; reflexivity).
  split.
  - split; [exact Hclause | split; [exact Hcore |]].
    exact (Hlabel _ _ _ Hclause Hcore).
  - split; [exact yoga_unlisted | exact (Hunlisted _ yoga_unlisted)].
Defined.

(** ** Missing columns *)

Lemma prefix_refl (s : string) : String.prefix s s = true.
Proof.
  induction s as [|c s IH]; simpl; [reflexivity|].
  destruct (ascii_dec c c); [assumption | contradiction].
Qed.

Lemma includes_refl (s : string) : includes s s = true.
Proof.
  destruct s as [|c s]; [reflexivity|].
  unfold includes; fold includes. rewrite prefix_refl. reflexivity.
Qed.

Lemma includes_of_prefix (hay needle : string) :
  String.prefix needle hay = true → includes hay needle = true.
Proof.
  intros Hprefix. destruct hay; unfold includes; fold includes;
    rewrite Hprefix; reflexivity.
Qed.

Lemma prefix_app (a b : string) : String.prefix a (a ++ b) = true.
Proof.
  induction a as [|c a IH]; [destruct b; reflexivity|].
  change (String.prefix (String c a) (String c (a ++ b)) = true). simpl.
  destruct (ascii_dec c c); [assumption | contradiction].
Qed.

Lemma includes_app_r (a b needle : string) :
  includes b needle = true → includes (a ++ b) needle = true.
Proof.
  intros Hb. induction a as [|c a IH].
  - exact Hb.
  - change (includes (String c (a ++ b)) needle = true).
    unfold includes; fold includes. rewrite IH. apply orb_true_r.
Qed.

Lemma missingExerciseColumn_lists_headers (column : string) (headers : list string) :
  includes (missingExerciseColumn column headers) (join ", " headers) = true.
Proof.
  unfold missingExerciseColumn. do 5 apply includes_app_r. apply includes_refl.
Qed.

(** The exercise importer reports a missing name or category column with
    the headers it found. *)
Lemma exercise_missing_column (csvContent : string) :
  let lines := split LF (trim csvContent) in
  let headers := headerRow lines in
  (2 <= length lines)%nat →
  findIndex isNameHeader headers = (-1)%Z ∨ findIndex isCategoryHeader headers = (-1)%Z →
  ∃ column, (column = "name" ∨ column = "category") ∧
    parseExercisesCSV csvContent = Throw (missingExerciseColumn column headers) ∧
    includes (missingExerciseColumn column headers) (join ", " headers) = true.
Proof.
  intros lines headers Hlen Hmissing. unfold parseExercisesCSV.
  fold lines. fold headers.
  destruct (Nat.ltb_spec (length lines) 2) as [Hlt | _]; [lia|].
  destruct (Z.eqb_spec (findIndex isNameHeader headers) (-1)) as [Hname | Hname].
  - exists "name". split; [left; reflexivity|]. split; [reflexivity|].
    apply missingExerciseColumn_lists_headers.
  - destruct Hmissing as [Hmissing | Hmissing]; [contradiction|].
    rewrite Hmissing. simpl. exists "category". split; [right; reflexivity|].
    split; [reflexivity|].
    apply missingExerciseColumn_lists_headers.
Qed.

(** The workout importer reports a missing required column with one of
    four fixed messages, whatever the headers are. *)
Lemma workout_missing_column `{Platform} (csvContent : string) (w : World) :
  let lines := split LF (trim csvContent) in
  let cols := workoutColumns (headerRow lines) in
  (2 <= length lines)%nat →
  dateIndex cols = (-1)%Z ∨ exerciseNameIndex cols = (-1)%Z ∨
  repsIndex cols = (-1)%Z ∨ setNumberIndex cols = (-1)%Z →
  ∃ message,
    message ∈ [missingDateColumn; missingExerciseNameColumn; missingRepsColumn;
               missingSetNumberColumn] ∧
    parseWorkoutsCSV csvContent w = (Throw message, w).
Proof.
  intros lines cols Hlen Hmissing. unfold parseWorkoutsCSV.
  fold lines. fold cols.
  destruct (Nat.ltb_spec (length lines) 2) as [Hlt | _]; [lia|].
  destruct (Z.eqb_spec (dateIndex cols) (-1));
    [exists missingDateColumn; split; [rewrite !elem_of_cons; auto 10 | reflexivity]|].
  destruct (Z.eqb_spec (exerciseNameIndex cols) (-1));
    [exists missingExerciseNameColumn; split; [rewrite !elem_of_cons; auto 10 | reflexivity]|].
  destruct (Z.eqb_spec (repsIndex cols) (-1));
    [exists missingRepsColumn; split; [rewrite !elem_of_cons; auto 10 | reflexivity]|].
  destruct (Z.eqb_spec (setNumberIndex cols) (-1));
    [exists missingSetNumberColumn; split; [rewrite !elem_of_cons; auto 10 | reflexivity]|].
  intuition congruence.
Qed.

(** C7, at a failing input.  For the file with the header [when,what] the
    exercise importer throws a message that ends with the headers found,
    [when, what], and the workout importer throws the fixed message about
    the date column, in which the headers do not occur. *)
Theorem workout_missing_column_omits_headers `{Platform} (w : World) :
  let csvContent := join (String LF EmptyString) ["when,what"; "2024-01-15,Plank"] in
  let headers := headerRow (split LF (trim csvContent)) in
  headers = ["when"; "what"] ∧
  parseExercisesCSV csvContent = Throw (missingExerciseColumn "name" headers) ∧
  includes (missingExerciseColumn "name" headers) (join ", " headers) = true ∧
  parseWorkoutsCSV csvContent w = (Throw missingDateColumn, w) ∧
  includes missingDateColumn (join ", " headers) = false ∧
  includes missingDateColumn "when" = false.
Proof. repeat split. Qed.

(** ** Rows that are too short *)

Lemma at_index_missing {A} (arr : list A) (i : Z) :
  (Z.of_nat (length arr) <= i)%Z → at_index arr i = None.
Proof.
  intros Hlen. unfold at_index.
  destruct (Z.ltb_spec i 0) as [_ | Hpos]; [reflexivity|].
  apply lookup_ge_None. lia.
Qed.

Lemma exerciseRow_short (nameIndex descriptionIndex categoryIndex : Z)
    (rawLine : string) (row : ExerciseCSVRow) :
  exerciseRow nameIndex descriptionIndex categoryIndex rawLine = Some row →
  (missingCell (cellsOf rawLine) categoryIndex → row_category row = FullBody) ∧
  (missingCell (cellsOf rawLine) descriptionIndex → row_description row = None).
Proof.
  unfold exerciseRow, missingCell, cellsOf. intros Hrow.
  destruct (negb (truthy (Some (trim rawLine)))); [discriminate|].
  destruct (negb (truthy _)); [discriminate|].
  injection Hrow as <-. simpl. split; intros Hshort.
  - rewrite (at_index_missing _ _ Hshort). reflexivity.
  - destruct (Z.leb_spec 0 descriptionIndex); [|reflexivity].
    rewrite (at_index_missing _ _ Hshort). reflexivity.
Qed.

Lemma exerciseRow_no_name (nameIndex descriptionIndex categoryIndex : Z)
    (rawLine : string) :
  missingCell (cellsOf rawLine) nameIndex →
  exerciseRow nameIndex descriptionIndex categoryIndex rawLine = None.
Proof.
  unfold exerciseRow, missingCell, cellsOf. intros Hshort.
  destruct (negb (truthy (Some (trim rawLine)))); [reflexivity|].
  rewrite (at_index_missing _ _ Hshort). reflexivity.
Qed.

(** Once the header is accepted, no data line makes the exercise importer
    throw. *)
Lemma parseExercisesCSV_rows_total (csvContent : string) :
  let lines := split LF (trim csvContent) in
  let headers := headerRow lines in
  (2 <= length lines)%nat →
  findIndex isNameHeader headers ≠ (-1)%Z →
  findIndex isCategoryHeader headers ≠ (-1)%Z →
  parseExercisesCSV csvContent
  = Ok (exerciseLoop (findIndex isNameHeader headers) (findIndex isDescriptionHeader headers)
          (findIndex isCategoryHeader headers) (drop 1 lines) []).
Proof.
  intros lines headers Hlen Hname Hcategory. unfold parseExercisesCSV.
  fold lines. fold headers.
  destruct (Nat.ltb_spec (length lines) 2) as [Hlt | _]; [lia|].
  destruct (Z.eqb_spec (findIndex isNameHeader headers) (-1)); [contradiction|].
  destruct (Z.eqb_spec (findIndex isCategoryHeader headers) (-1)); [contradiction|].
  reflexivity.
Qed.

Section ShortRows.

Context `{Platform}.

Lemma requiredCells_missing (cols : WorkoutColumns) (values : list string) :
  missingCell values (dateIndex cols) ∨ missingCell values (exerciseNameIndex cols) ∨
  missingCell values (repsIndex cols) ∨ missingCell values (setNumberIndex cols) →
  requiredCells cols values = None.
Proof.
  unfold requiredCells, missingCell.
  intros [Hshort | [Hshort | [Hshort | Hshort]]];
    rewrite (at_index_missing _ _ Hshort); simpl;
    repeat match goal with |- context [nonEmpty ?v] => destruct (nonEmpty v) end;
    reflexivity.
Qed.

Lemma processRow_short (cols : WorkoutColumns) (i : nat) (rawLine : string)
    (st : Locals) (w : World) :
  missingCell (cellsOf rawLine) (dateIndex cols) ∨
  missingCell (cellsOf rawLine) (exerciseNameIndex cols) ∨
  missingCell (cellsOf rawLine) (repsIndex cols) ∨
  missingCell (cellsOf rawLine) (setNumberIndex cols) →
  processRow cols i rawLine st w = (Ok st, w).
Proof.
  intros Hshort. unfold processRow.
  destruct (negb (truthy (Some (trim rawLine)))); [reflexivity|].
  fold (cellsOf rawLine). rewrite (requiredCells_missing _ _ Hshort). reflexivity.
Qed.

(** A turn of the loop throws only one of the three row messages, and only
    for a row whose four required cells are all present. *)
Lemma processRow_throws (cols : WorkoutColumns) (i : nat) (rawLine : string)
    (st : Locals) (w w' : World) (message : string) :
  processRow cols i rawLine st w = (Throw message, w') →
  ∃ dateStr exerciseName repsStr setNumberStr,
    requiredCells cols (cellsOf rawLine)
    = Some (dateStr, exerciseName, repsStr, setNumberStr) ∧
    message ∈ [invalidDate dateStr i; invalidReps repsStr i;
               invalidSetNumber setNumberStr i].
Proof.
  unfold processRow. fold (cellsOf rawLine).
  destruct (negb (truthy (Some (trim rawLine)))); [discriminate|].
  destruct (requiredCells cols (cellsOf rawLine))
    as [[[[dateStr exerciseName] repsStr] setNumberStr]|]; [|discriminate].
  intros Hthrow. exists dateStr, exerciseName, repsStr, setNumberStr.
  split; [reflexivity|]. rewrite !elem_of_cons.
  destruct (getTime (newDate dateStr)); [|injection Hthrow as <- _; auto].
  destruct (parseInt repsStr) as [reps|]; [|injection Hthrow as <- _; auto].
  destruct (reps <? 0)%Z; [injection Hthrow as <- _; auto|].
  destruct (parseInt setNumberStr) as [setNumber|]; [|injection Hthrow as <- _; auto].
  destruct (setNumber <? 1)%Z; [injection Hthrow as <- _; auto|].
  destruct (findOrCreateExercise cols _ exerciseName st w) as [[exercise st1] w1].
  discriminate.
Qed.

End ShortRows.


(** ** Exercises created by the workout importer *)

Lemma categoryName_inj (c c' : Category) : categoryName c = categoryName c' → c = c'.
Proof. destruct c, c'; simpl; intros Heq; try reflexivity; discriminate. Qed.

Lemma find_valid_category (raw : string) :
  (∃ c, raw = categoryName c ∧
        find (λ c, String.eqb (categoryName c) raw) validCategories = Some c) ∨
  ((∀ c, raw ≠ categoryName c) ∧
   find (λ c, String.eqb (categoryName c) raw) validCategories = None).
Proof.
  cbv [validCategories find categoryName].
  destruct (String.eqb_spec "abs" raw) as [<- | ?];
    [left; exists Abs; split; reflexivity|].
  destruct (String.eqb_spec "legs" raw) as [<- | ?];
    [left; exists Legs; split; reflexivity|].
  destruct (String.eqb_spec "arms" raw) as [<- | ?];
    [left; exists Arms; split; reflexivity|].
  destruct (String.eqb_spec "back" raw) as [<- | ?];
    [left; exists Back; split; reflexivity|].
  destruct (String.eqb_spec "shoulders" raw) as [<- | ?];
    [left; exists Shoulders; split; reflexivity|].
  destruct (String.eqb_spec "chest" raw) as [<- | ?];
    [left; exists Chest; split; reflexivity|].
  destruct (String.eqb_spec "cardio" raw) as [<- | ?];
    [left; exists Cardio; split; reflexivity|].
  destruct (String.eqb_spec "full-body" raw) as [<- | ?];
    [left; exists FullBody; split; reflexivity|].
  right. split; [|reflexivity]. intros c Hc. destruct c; simpl in Hc; congruence.
Qed.

(** The category of a created exercise is the cell of the category column
    when that cell is one of the eight canonical names, and full-body in
    every other case. *)
Lemma newExerciseCategory_spec (cols : WorkoutColumns) (values : list string) (c : Category) :
  newExerciseCategory cols values = c ↔
  categoryCell cols values = Some (categoryName c) ∨
  (c = FullBody ∧ ∀ c', categoryCell cols values ≠ Some (categoryName c')).
Proof.
  unfold newExerciseCategory, categoryCell.
  destruct (0 <=? exerciseCategoryIndex cols)%Z.
  - destruct (at_index values (exerciseCategoryIndex cols)) as [v|];
      cbn [fmap option_fmap option_map].
    + destruct (find_valid_category (toLowerCase (trim v)))
        as [[c0 [Hraw Hfind]] | [Hnone Hfind]]; rewrite Hfind;
        cbn [default from_option]; unfold id.
      * rewrite Hraw. split.
        -- intros ->. left. reflexivity.
        -- intros [Heq | [_ Hno]].
           ++ injection Heq as Heq. apply categoryName_inj. assumption.
           ++ exfalso. apply (Hno c0). reflexivity.
      * split.
        -- intros <-. right. split; [reflexivity|].
           intros c' Heq. injection Heq as Heq. apply (Hnone c'). assumption.
        -- intros [Heq | [-> _]]; [|reflexivity].
           injection Heq as Heq. exfalso. apply (Hnone c). assumption.
    + split.
      * intros <-. right. split; [reflexivity | discriminate].
      * intros [Heq | [-> _]]; [discriminate | reflexivity].
  - split.
    + intros <-. right. split; [reflexivity | discriminate].
    + intros [Heq | [-> _]]; [discriminate | reflexivity].
Qed.

(** C6, as amended.  When the name of a row, in lower case, is not a key of
    the working map, the importer creates one exercise: its reference is
    new, its id is the next identifier, its name is the name as written in
    the row, its category is the cell of the category column when that cell
    (trimmed, in lower case) is one of the eight canonical names and
    full-body otherwise, with no use of the synonyms of the exercise
    importer.  The reference is appended to [newExercises] and registered in
    the working map, where any later spelling of the name that differs in
    letter case only finds it.  No other object changes. *)
Theorem new_exercise_created `{Platform} (cols : WorkoutColumns) (values : list string)
    (exerciseName : string) (st : Locals) (w : World) :
  exerciseMap st !! toLowerCase exerciseName = None →
  ∃ exercise st' w' created,
    findOrCreateExercise cols values exerciseName st w = (exercise, st', w') ∧
    heap w !! exercise = None ∧
    heap w' = (heap w ++ [created])%list ∧
    heap w' !! exercise = Some created ∧
    ex_id created = randomUUID (uuidCalls w) ∧
    ex_name created = exerciseName ∧
    (∀ c, ex_category created = c ↔
          categoryCell cols values = Some (categoryName c) ∨
          (c = FullBody ∧ ∀ c', categoryCell cols values ≠ Some (categoryName c'))) ∧
    newExercises st' = (newExercises st ++ [exercise])%list ∧
    (∀ otherName, toLowerCase otherName = toLowerCase exerciseName →
                  exerciseMap st' !! toLowerCase otherName = Some exercise) ∧
    exercises w' = exercises w ∧
    workoutMap st' = workoutMap st.
Proof.
  intros Habsent. unfold findOrCreateExercise. rewrite Habsent. simpl.
  eexists _, _, _, _. split; [reflexivity|]. simpl.
  split; [apply lookup_ge_None; lia|].
  split; [reflexivity|].
  split; [rewrite lookup_app_r by lia; rewrite Nat.sub_diag; reflexivity|].
  split; [reflexivity|]. split; [reflexivity|].
  split; [intros c; apply newExerciseCategory_spec|].
  split; [reflexivity|].
  split; [|split; reflexivity].
  intros otherName ->. apply lookup_insert_eq.
Qed.

(** An exercise whose name is a key of the working map is reused: nothing
    is created and nothing changes. *)
Lemma known_exercise_reused `{Platform} (cols : WorkoutColumns) (values : list string)
    (exerciseName : string) (st : Locals) (w : World) (exercise : addr) :
  exerciseMap st !! toLowerCase exerciseName = Some exercise →
  findOrCreateExercise cols values exerciseName st w = (exercise, st, w).
Proof. intros Hknown. unfold findOrCreateExercise. rewrite Hknown. reflexivity. Qed.

(** The working map starts from the catalog: a key is missing from it
    exactly when no exercise of the caller's array has that name in lower
    case. *)
Lemma catalogMap_absent `{Platform} (w : World) (key : string) :
  catalogMap w !! key = None ↔
  ∀ a, a ∈ exercises w → toLowerCase (ex_name (deref w a)) ≠ key.
Proof.
  unfold catalogMap.
  assert (Hgen : ∀ (m : gmap string addr),
    foldl (λ m a, <[toLowerCase (ex_name (deref w a)) := a]> m) m (exercises w) !! key
    = None ↔
    m !! key = None ∧ ∀ a, a ∈ exercises w → toLowerCase (ex_name (deref w a)) ≠ key).
  { induction (exercises w) as [|a rest IH]; intros m; simpl.
    - split; [intros Hm; split; [exact Hm | intros a Ha; inversion Ha] | tauto].
    - rewrite IH, lookup_insert_None. split.
      + intros [[Hm Ha] Hrest]. split; [exact Hm|].
        intros b Hb. apply elem_of_cons in Hb. destruct Hb as [-> | Hb]; auto.
      + intros [Hm Hall]. split; [split; [exact Hm|] |].
        * apply Hall. apply list_elem_of_here.
        * intros b Hb. apply Hall. apply list_elem_of_further. exact Hb. }
  rewrite Hgen, lookup_empty. tauto.
Qed.

(** ** Validation of reps and set numbers *)

Lemma isDigit_code (c : ascii) : isDigit c = true → (48 <= code c <= 57)%nat.
Proof.
  unfold isDigit. rewrite andb_true_iff, !Nat.leb_le. tauto.
Qed.

Lemma ascii_eqb_code (c : ascii) (d : ascii) :
  code c ≠ code d → Ascii.eqb c d = false.
Proof.
  intros Hne. apply Ascii.eqb_neq. intros ->. contradiction.
Qed.

Lemma digit_not_space (c : ascii) : isDigit c = true → isWhiteSpace c = false.
Proof.
  intros Hd. apply isDigit_code in Hd. unfold isWhiteSpace. cbv zeta.
  destruct (Nat.leb_spec 9 (code c)), (Nat.leb_spec (code c) 13),
    (Nat.eqb_spec (code c) 32), (Nat.eqb_spec (code c) 160); simpl; try reflexivity; lia.
Qed.

Lemma digitValue_decimal (c : ascii) :
  isDigit c = true → digitValue 10 c = Some (Z.of_nat (code c) - 48)%Z.
Proof.
  intros Hd. apply isDigit_code in Hd. unfold digitValue. cbv zeta.
  destruct (Z.leb_spec 48 (Z.of_nat (code c))); [|lia].
  destruct (Z.leb_spec (Z.of_nat (code c)) 57); [|lia].
  simpl. destruct (Z.ltb_spec (Z.of_nat (code c) - 48) 10); [reflexivity | lia].
Qed.

Lemma readDigits_decimal (digits : string) (acc : Z) :
  allChars isDigit digits = true →
  readDigits 10 digits (Some acc) = Some (decimalValue digits acc).
Proof.
  revert acc. induction digits as [|c rest IH]; intros acc Hall; simpl.
  - reflexivity.
  - simpl in Hall. apply andb_true_iff in Hall. destruct Hall as [Hc Hrest].
    rewrite (digitValue_decimal c Hc). apply IH. assumption.
Qed.

Lemma readDigits_decimal_start (c : ascii) (rest : string) :
  allChars isDigit (String c rest) = true →
  readDigits 10 (String c rest) None = Some (decimalValue (String c rest) 0).
Proof.
  intros Hall. simpl in Hall. apply andb_true_iff in Hall. destruct Hall as [Hc Hrest].
  simpl. rewrite (digitValue_decimal c Hc). simpl. apply readDigits_decimal. assumption.
Qed.

Lemma readRadix_digits (digits : string) :
  allChars isDigit digits = true → readRadix digits = (10%Z, digits).
Proof.
  intros Hall. destruct digits as [|c0 [|c1 rest]]; try reflexivity.
  assert (Hc1 : isDigit c1 = true).
  { simpl in Hall. apply andb_true_iff in Hall. destruct Hall as [_ Hall].
    apply andb_true_iff in Hall. tauto. }
  apply isDigit_code in Hc1. unfold readRadix.
  rewrite (ascii_eqb_code c1 "x"), (ascii_eqb_code c1 "X"), andb_false_r
    by (change (code "x") with 120%nat; change (code "X") with 88%nat; lia).
  reflexivity.
Qed.

Lemma readSign_digit (c : ascii) (rest : string) :
  isDigit c = true → readSign (String c rest) = (1%Z, String c rest).
Proof.
  intros Hc. apply isDigit_code in Hc. unfold readSign.
  rewrite (ascii_eqb_code c "-"), (ascii_eqb_code c "+")
    by (change (code "-") with 45%nat; change (code "+") with 43%nat; lia).
  reflexivity.
Qed.

Lemma signed_not_space (c : ascii) :
  Ascii.eqb c "-" || Ascii.eqb c "+" || isDigit c = true → isWhiteSpace c = false.
Proof.
  rewrite !orb_true_iff. intros [[Hc | Hc] | Hc].
  - apply Ascii.eqb_eq in Hc. subst c. reflexivity.
  - apply Ascii.eqb_eq in Hc. subst c. reflexivity.
  - apply digit_not_space. assumption.
Qed.

(** On a string that denotes an integer, [parseInt] returns that integer. *)
Lemma parseInt_denoted (s : string) (v : Z) :
  denotedInteger s = Some v → parseInt s = Some v.
Proof.
  unfold denotedInteger, parseInt. intros Hden.
  assert (Htrim : trimStart s = s).
  { destruct s as [|c rest]; [reflexivity|]. simpl.
    rewrite signed_not_space; [reflexivity|].
    unfold readSign in Hden.
    destruct (Ascii.eqb c "-"); [reflexivity|].
    destruct (Ascii.eqb c "+"); [reflexivity|]. simpl.
    destruct (allChars isDigit (String c rest)) eqn:Hall; [|discriminate].
    simpl in Hall. apply andb_true_iff in Hall. tauto. }
  rewrite Htrim. destruct (readSign s) as [sign digits].
  destruct digits as [|d rest]; [discriminate|].
  destruct (allChars isDigit (String d rest)) eqn:Hall; [|discriminate].
  injection Hden as <-.
  rewrite (readRadix_digits _ Hall), (readDigits_decimal_start _ _ Hall). reflexivity.
Qed.

Lemma truthy_Some (s : string) : truthy (Some s) = false ↔ s = EmptyString.
Proof. destruct s; simpl; split; intros Heq; congruence. Qed.

Lemma requiredCells_blank (cols : WorkoutColumns) :
  requiredCells cols (cellsOf EmptyString) = None.
Proof.
  unfold requiredCells. change (cellsOf EmptyString) with [EmptyString].
  assert (Hdate : nonEmpty (trim <$> at_index [EmptyString] (dateIndex cols)) = None).
  { unfold at_index. destruct (dateIndex cols <? 0)%Z; [reflexivity|].
    destruct (Z.to_nat (dateIndex cols)) as [|n]; reflexivity. }
  rewrite Hdate. reflexivity.
Qed.

Lemma trim_idempotent_empty (rawLine : string) :
  trim rawLine = EmptyString → cellsOf rawLine = cellsOf EmptyString.
Proof. unfold cellsOf. intros ->. reflexivity. Qed.

Section NumberValidation.

Context `{Platform}.

(** The outcome of a turn of the loop for a complete row with a valid date,
    by the two tests on its numbers. *)
Lemma processRow_complete (cols : WorkoutColumns) (i : nat) (rawLine : string)
    (st : Locals) (w : World) (dateStr exerciseName repsStr setNumberStr : string) :
  requiredCells cols (cellsOf rawLine)
  = Some (dateStr, exerciseName, repsStr, setNumberStr) →
  is_Some (getTime (newDate dateStr)) →
  processRow cols i rawLine st w =
  if acceptsReps repsStr then
    if acceptsSetNumber setNumberStr then
      let '(exercise, st1, w1) :=
        findOrCreateExercise cols (cellsOf rawLine) exerciseName st w in
      (Ok {| workoutMap :=
               recordSet cols (cellsOf rawLine) (toDateString (newDate dateStr))
                 {| e_exerciseId := ex_id (deref w1 exercise);
                    e_reps := default 0%Z (parseInt repsStr);
                    e_notes := if (0 <=? setNotesIndex cols)%Z
                               then trim <$> at_index (cellsOf rawLine) (setNotesIndex cols)
                               else None;
                    e_setNumber := default 0%Z (parseInt setNumberStr);
                    e_exerciseName := exerciseName |}
                 (workoutMap st1);
             exerciseMap := exerciseMap st1;
             newExercises := newExercises st1 |}, w1)
    else (Throw (invalidSetNumber setNumberStr i), w)
  else (Throw (invalidReps repsStr i), w).
Proof.
  intros Hcells [t Hdate]. unfold processRow.
  destruct (negb (truthy (Some (trim rawLine)))) eqn:Hblank.
  - apply negb_true_iff, truthy_Some in Hblank.
    rewrite (trim_idempotent_empty _ Hblank), requiredCells_blank in Hcells.
    discriminate.
  - fold (cellsOf rawLine). rewrite Hcells, Hdate.
    unfold acceptsReps, acceptsSetNumber.
    destruct (parseInt repsStr) as [reps|]; [|reflexivity].
    destruct (reps <? 0)%Z; [reflexivity|].
    destruct (parseInt setNumberStr) as [setNumber|]; [|reflexivity].
    destruct (setNumber <? 1)%Z; reflexivity.
Qed.

End NumberValidation.

(** C4, as amended.  For a data row that passes the completeness check and
    whose date is valid, the turn of the loop throws exactly when [parseInt]
    of the reps cell is NaN or negative, or [parseInt] of the set number
    cell is NaN or below 1.  The reps are tested first; the message names
    the cell and ends with the loop index plus one, the line number, and the
    world is as before the row.  Reps [-1] and [abc] and set number [0] are
    rejected.  Whenever the two cells denote integers the row is rejected
    exactly when the reps are negative or the set number is below 1; but
    [parseInt] reads the integer at the front of a cell and ignores what
    follows, so that [12abc] is accepted as 12. *)
Theorem row_number_validation `{Platform} (cols : WorkoutColumns) (i : nat)
    (rawLine : string) (st : Locals) (w : World)
    (dateStr exerciseName repsStr setNumberStr : string) :
  requiredCells cols (cellsOf rawLine)
  = Some (dateStr, exerciseName, repsStr, setNumberStr) →
  is_Some (getTime (newDate dateStr)) →
  let outcome := processRow cols i rawLine st w in
  (acceptsReps repsStr = false → outcome = (Throw (invalidReps repsStr i), w)) ∧
  (acceptsReps repsStr = true → acceptsSetNumber setNumberStr = false →
   outcome = (Throw (invalidSetNumber setNumberStr i), w)) ∧
  throws outcome.1 = negb (acceptsReps repsStr && acceptsSetNumber setNumberStr) ∧
  (∀ reps setNumber,
     denotedInteger repsStr = Some reps → denotedInteger setNumberStr = Some setNumber →
     throws outcome.1 = true ↔ (reps < 0 ∨ setNumber < 1)%Z) ∧
  includes (invalidReps repsStr i) (" on line " ++ showNat (i + 1)) = true ∧
  includes (invalidSetNumber setNumberStr i) (" on line " ++ showNat (i + 1)) = true ∧
  (acceptsReps "-1" = false ∧ acceptsReps "abc" = false ∧ acceptsSetNumber "0" = false ∧
   denotedInteger "12abc" = None ∧ parseInt "12abc" = Some 12%Z ∧
   acceptsReps "12abc" = true).
Proof.
  intros Hcells Hdate outcome.
  assert (Hout := processRow_complete cols i rawLine st w _ _ _ _ Hcells Hdate).
  fold outcome in Hout.
  assert (Hthrows :
    throws outcome.1 = negb (acceptsReps repsStr && acceptsSetNumber setNumberStr)).
  { rewrite Hout. destruct (acceptsReps repsStr); [|reflexivity].
    destruct (acceptsSetNumber setNumberStr); [|reflexivity].
    destruct (findOrCreateExercise _ _ _ _ _) as [[exercise st1] w1]. reflexivity. }
  split; [intros Hreps; rewrite Hout, Hreps; reflexivity|].
  split; [intros Hreps Hset; rewrite Hout, Hreps, Hset; reflexivity|].
  split; [exact Hthrows|].
  split.
  - intros reps setNumber Hreps Hset. rewrite Hthrows.
    unfold acceptsReps, acceptsSetNumber.
    rewrite (parseInt_denoted _ _ Hreps), (parseInt_denoted _ _ Hset).
    destruct (Z.ltb_spec reps 0), (Z.ltb_spec setNumber 1); simpl; split;
      solve [ reflexivity | discriminate | lia | intros [?|?]; lia ].
  - split.
    + unfold invalidReps, onLine. do 4 apply includes_app_r. apply includes_refl.
    + split; [|repeat split].
      unfold invalidSetNumber, onLine. do 4 apply includes_app_r.
      apply includes_of_prefix, prefix_app.
Qed.

(** ** The caller's catalog *)

Section Frame.

Context `{Platform}.

Lemma extends_deref (w w' : World) (a : addr) :
  extends w w' → (a < length (heap w))%nat → deref w' a = deref w a.
Proof.
  intros [_ [created Hheap]] Ha. unfold deref. rewrite Hheap.
  apply lookup_total_app_l. assumption.
Qed.

Lemma freshUUID_heap (w : World) :
  exercises (freshUUID w).2 = exercises w ∧ heap (freshUUID w).2 = heap w.
Proof. split; reflexivity. Qed.

Lemma assignSetIds_heap (sets : list SetFields) (w : World) :
  exercises (assignSetIds sets w).2 = exercises w ∧
  heap (assignSetIds sets w).2 = heap w.
Proof.
  revert w. induction sets as [|set rest IH]; intros w; simpl; [split; reflexivity|].
  destruct (assignSetIds rest _) as [rest' w2] eqn:Hrest. simpl.
  specialize (IH (freshUUID w).2). unfold freshUUID in IH at 1 3. simpl in IH.
  rewrite Hrest in IH. exact IH.
Qed.

Lemma buildWorkouts_heap (entries : list (string * DayData)) (w : World) :
  exercises (buildWorkouts entries w).2 = exercises w ∧
  heap (buildWorkouts entries w).2 = heap w.
Proof.
  revert w. induction entries as [|[dateStr data] rest IH]; intros w; simpl;
    [split; reflexivity|].
  destruct (assignSetIds _ _) as [sets w2] eqn:Hsets.
  destruct (buildWorkouts rest w2) as [workouts w3] eqn:Hrest. simpl.
  specialize (IH w2). rewrite Hrest in IH. simpl in IH.
  pose proof (assignSetIds_heap (orderedSets (day_sets data))
                {| exercises := exercises w; heap := heap w; uuidCalls := S (uuidCalls w) |})
    as Hids.
  rewrite Hsets in Hids. simpl in Hids.
  destruct IH as [IHa IHh], Hids as [Hida Hidh]. split; congruence.
Qed.

Lemma findOrCreateExercise_invariant (cols : WorkoutColumns) (values : list string)
    (exerciseName : string) (w0 : World) (st : Locals) (w : World) :
  loopInvariant w0 st w →
  let '(_, st', w') := findOrCreateExercise cols values exerciseName st w in
  loopInvariant w0 st' w'.
Proof.
  intros [Harr [created [Hheap Hnew]]]. unfold findOrCreateExercise.
  destruct (exerciseMap st !! toLowerCase exerciseName) as [exercise|].
  - split; [assumption|]. exists created. split; assumption.
  - simpl. split; [assumption|]. eexists (created ++ [_])%list. simpl. split.
    + rewrite Hheap. symmetry. apply app_assoc.
    + rewrite Hnew, Hheap, !length_app. simpl. rewrite seq_app. simpl.
      reflexivity.
Qed.

Lemma processRow_invariant (cols : WorkoutColumns) (i : nat) (rawLine : string)
    (w0 : World) (st : Locals) (w : World) :
  loopInvariant w0 st w →
  match processRow cols i rawLine st w with
  | (Ok st', w') => loopInvariant w0 st' w'
  | (Throw _, w') => extends w0 w'
  end.
Proof.
  intros Hinv.
  assert (Hext : extends w0 w).
  { destruct Hinv as [Harr [created [Hheap _]]]. split; [assumption|]. eauto. }
  unfold processRow.
  destruct (negb (truthy (Some (trim rawLine)))); [assumption|].
  destruct (requiredCells cols _)
    as [[[[dateStr exerciseName] repsStr] setNumberStr]|]; [|assumption].
  destruct (getTime (newDate dateStr)); [|assumption].
  destruct (parseInt repsStr) as [reps|]; [|assumption].
  destruct (reps <? 0)%Z; [assumption|].
  destruct (parseInt setNumberStr) as [setNumber|]; [|assumption].
  destruct (setNumber <? 1)%Z; [assumption|].
  pose proof (findOrCreateExercise_invariant cols (parseCSVLine (trim rawLine))
                exerciseName w0 st w Hinv) as Hcreate.
  destruct (findOrCreateExercise _ _ _ _ _) as [[exercise st1] w1].
  exact Hcreate.
Qed.

Lemma processRows_invariant (cols : WorkoutColumns) (dataLines : list string) (i : nat)
    (w0 : World) (st : Locals) (w : World) :
  loopInvariant w0 st w →
  match processRows cols i dataLines st w with
  | (Ok st', w') => loopInvariant w0 st' w'
  | (Throw _, w') => extends w0 w'
  end.
Proof.
  revert i st w. induction dataLines as [|rawLine rest IH]; intros i st w Hinv; simpl.
  - assumption.
  - pose proof (processRow_invariant cols i rawLine w0 st w Hinv) as Hrow.
    destruct (processRow cols i rawLine st w) as [[st'|message] w'].
    + apply IH. assumption.
    + assumption.
Qed.

End Frame.

(** C9.  A call of the workout importer, whether it returns or throws,
    leaves the caller's array as it was and every object that existed with
    its fields: the heap after the call is the heap before it followed by
    the exercises created.  When the call returns, [newExercises] holds the
    references of the created exercises, in the order of creation, none of
    which is a reference of an object that existed. *)
Theorem catalog_unchanged `{Platform} (csvContent : string) (w : World) :
  let '(result, w') := parseWorkoutsCSV csvContent w in
  exercises w' = exercises w ∧
  ∃ created,
    heap w' = (heap w ++ created)%list ∧
    match result with
    | Ok imported =>
        imported_newExercises imported = seq (length (heap w)) (length created)
    | Throw _ => True
    end.
Proof.
  unfold parseWorkoutsCSV.
  assert (Hsame : exercises w = exercises w ∧
                  ∃ created, heap w = (heap w ++ created)%list ∧ True).
  { split; [reflexivity|]. exists []. split; [symmetry; apply app_nil_r | exact I]. }
  destruct (length (split LF (trim csvContent)) <? 2)%nat; [exact Hsame|].
  destruct (dateIndex _ =? -1)%Z; [exact Hsame|].
  destruct (exerciseNameIndex _ =? -1)%Z; [exact Hsame|].
  destruct (repsIndex _ =? -1)%Z; [exact Hsame|].
  destruct (setNumberIndex _ =? -1)%Z; [exact Hsame|].
  match goal with |- context [processRows ?cols 1 ?rows ?st0 w] =>
    pose proof (processRows_invariant cols rows 1 w st0 w) as Hloop;
    destruct (processRows cols 1 rows st0 w) as [[st|message] w1]
  end.
  - destruct Hloop as [Harr [created [Hheap Hnew]]].
    { split; [reflexivity|]. exists []. split; [symmetry; apply app_nil_r | reflexivity]. }
    pose proof (buildWorkouts_heap (workoutMap st) w1) as [Harr2 Hheap2].
    destruct (buildWorkouts (workoutMap st) w1) as [built w2]. simpl in *.
    split; [congruence|]. exists created. split; [congruence | assumption].
  - destruct Hloop as [Harr [created Hheap]].
    { split; [reflexivity|]. exists []. split; [symmetry; apply app_nil_r | reflexivity]. }
    split; [assumption|]. exists created. split; [assumption | exact I].
Qed.

(** ** Counting sets *)

Lemma has_set {V} (m : OMap.t V) (k : string) (v : V) :
  OMap.has (OMap.set m k v) k = true.
Proof.
  induction m as [|[k' v'] rest IH]; simpl.
  - rewrite String.eqb_refl. reflexivity.
  - destruct (String.eqb k' k) eqn:Hk; simpl.
    + rewrite String.eqb_refl. reflexivity.
    + rewrite Hk. exact IH.
Qed.

Lemma has_update {V} (m : OMap.t V) (k k' : string) (f : V → V) :
  OMap.has (OMap.update m k f) k' = OMap.has m k'.
Proof.
  induction m as [|[k0 v0] rest IH]; simpl; [reflexivity|].
  destruct (String.eqb k0 k); simpl; [reflexivity|]. rewrite IH. reflexivity.
Qed.

Lemma measure_set_new {V} (size : V → nat) (m : OMap.t V) (k : string) (v : V) :
  OMap.has m k = false → measure size (OMap.set m k v) = (measure size m + size v)%nat.
Proof.
  unfold measure. induction m as [|[k' v'] rest IH]; simpl; intros Hnew.
  - lia.
  - apply orb_false_iff in Hnew. destruct Hnew as [Hk Hrest].
    rewrite Hk. simpl. rewrite (IH Hrest). lia.
Qed.

Lemma measure_update {V} (size : V → nat) (m : OMap.t V) (k : string) (f : V → V)
    (n : nat) :
  OMap.has m k = true → (∀ v, size (f v) = (size v + n)%nat) →
  measure size (OMap.update m k f) = (measure size m + n)%nat.
Proof.
  unfold measure. intros Hhas Hf.
  induction m as [|[k' v'] rest IH]; simpl in *; [discriminate|].
  destruct (String.eqb k' k); simpl.
  - rewrite Hf. lia.
  - rewrite (IH Hhas). lia.
Qed.

Section Counting.

Context `{Platform}.

Lemma recordSet_measure (cols : WorkoutColumns) (values : list string) (dateKey : string)
    (set : SetEntry) (workoutMap : OMap.t DayData) :
  measure setsOfDay (recordSet cols values dateKey set workoutMap)
  = S (measure setsOfDay workoutMap).
Proof.
  unfold recordSet.
  set (m1 := if OMap.has workoutMap dateKey then workoutMap else OMap.set _ _ _).
  assert (Hhas1 : OMap.has m1 dateKey = true).
  { unfold m1. destruct (OMap.has workoutMap dateKey) eqn:Hhas;
      [assumption | apply has_set]. }
  assert (Hm1 : measure setsOfDay m1 = measure setsOfDay workoutMap).
  { unfold m1. destruct (OMap.has workoutMap dateKey) eqn:Hhas; [reflexivity|].
    rewrite (measure_set_new _ _ _ _ Hhas). unfold setsOfDay. simpl. lia. }
  set (m2 := OMap.update m1 dateKey _).
  assert (Hm2 : measure setsOfDay m2 = S (measure setsOfDay workoutMap)).
  { unfold m2. rewrite (measure_update setsOfDay m1 dateKey _ 1 Hhas1).
    - lia.
    - intros v. unfold setsOfDay. simpl. rewrite length_app. reflexivity. }
  destruct (0 <=? workoutNotesIndex cols)%Z; [|exact Hm2].
  rewrite (measure_update setsOfDay m2 dateKey _ 0).
  - lia.
  - unfold m2. rewrite has_update. exact Hhas1.
  - intros v. unfold setsOfDay. destruct (_ && _); simpl; lia.
Qed.

(** A turn of the loop that does not throw adds one set for a row that
    counts and none for any other row. *)
Lemma processRow_measure (cols : WorkoutColumns) (i : nat) (rawLine : string)
    (st st' : Locals) (w w' : World) :
  processRow cols i rawLine st w = (Ok st', w') →
  measure setsOfDay (workoutMap st')
  = (measure setsOfDay (workoutMap st) + if rowCounts cols rawLine then 1 else 0)%nat.
Proof.
  unfold processRow, rowCounts. fold (cellsOf rawLine).
  destruct (truthy (Some (trim rawLine))); simpl;
    [|intros [= <- _]; lia].
  destruct (requiredCells cols (cellsOf rawLine))
    as [[[[dateStr exerciseName] repsStr] setNumberStr]|]; [|intros [= <- _]; lia].
  unfold acceptsReps, acceptsSetNumber.
  destruct (getTime (newDate dateStr)) as [t|]; [|discriminate].
  rewrite bool_decide_eq_true_2 by eauto.
  destruct (parseInt repsStr) as [reps|]; [|discriminate].
  destruct (reps <? 0)%Z; [discriminate|].
  destruct (parseInt setNumberStr) as [setNumber|]; [|discriminate].
  destruct (setNumber <? 1)%Z; [discriminate|].
  destruct (findOrCreateExercise cols (cellsOf rawLine) exerciseName st w)
    as [[exercise st1] w1] eqn:Hcreate.
  assert (Hmap : workoutMap st1 = workoutMap st).
  { unfold findOrCreateExercise in Hcreate.
    destruct (exerciseMap st !! toLowerCase exerciseName);
      injection Hcreate as _ <- _; reflexivity. }
  intros [= <- _]. simpl. rewrite recordSet_measure, Hmap. lia.
Qed.

Lemma processRows_measure (cols : WorkoutColumns) (dataLines : list string) (i : nat)
    (st st' : Locals) (w w' : World) :
  processRows cols i dataLines st w = (Ok st', w') →
  measure setsOfDay (workoutMap st')
  = (measure setsOfDay (workoutMap st)
     + length (List.filter (rowCounts cols) dataLines))%nat.
Proof.
  revert i st w. induction dataLines as [|rawLine rest IH]; intros i st w; simpl.
  - intros [= <- _]. lia.
  - destruct (processRow cols i rawLine st w) as [[st1|message] w1] eqn:Hrow;
      [|discriminate].
    intros Hrest. rewrite (IH _ _ _ Hrest), (processRow_measure _ _ _ _ _ _ _ Hrow).
    destruct (rowCounts cols rawLine); simpl; lia.
Qed.

Lemma insertBySetNumber_length (set : SetEntry) (sorted : list SetEntry) :
  length (insertBySetNumber set sorted) = S (length sorted).
Proof.
  induction sorted as [|other rest IH]; simpl; [reflexivity|].
  destruct (e_setNumber set <? e_setNumber other)%Z; simpl; [reflexivity|].
  rewrite IH. reflexivity.
Qed.

Lemma sortBySetNumber_length (exerciseSets : list SetEntry) :
  length (sortBySetNumber exerciseSets) = length exerciseSets.
Proof.
  unfold sortBySetNumber.
  assert (Hgen : ∀ sorted, length (foldl (λ sorted set, insertBySetNumber set sorted)
                                     sorted exerciseSets)
                           = (length sorted + length exerciseSets)%nat).
  { induction exerciseSets as [|set rest IH]; intros sorted; simpl; [lia|].
    rewrite IH, insertBySetNumber_length. lia. }
  rewrite Hgen. reflexivity.
Qed.

Lemma groupByExercise_measure (sets : list SetEntry) :
  measure length (groupByExercise sets) = length sets.
Proof.
  unfold groupByExercise.
  assert (Hgen : ∀ groups : OMap.t (list SetEntry),
    measure length (foldl groupStep groups sets)
    = (measure length groups + length sets)%nat).
  { induction sets as [|set rest IH]; intros groups; simpl; [lia|].
    rewrite IH. unfold groupStep. rewrite (measure_update length _ _ _ 1).
    - destruct (OMap.has groups (e_exerciseName set)) eqn:Hhas; [lia|].
      rewrite (measure_set_new _ _ _ _ Hhas). simpl. lia.
    - destruct (OMap.has groups (e_exerciseName set)) eqn:Hhas;
        [assumption | apply has_set].
    - intros v. rewrite length_app. reflexivity. }
  rewrite Hgen. reflexivity.
Qed.

Lemma orderedSets_length (sets : list SetEntry) :
  length (orderedSets sets) = length sets.
Proof.
  transitivity (measure length (groupByExercise sets));
    [|apply groupByExercise_measure].
  unfold orderedSets, measure, OMap.values.
  generalize (groupByExercise sets). intros groups.
  induction groups as [|[name group] rest IH]; simpl; [reflexivity|].
  rewrite length_app, length_map, sortBySetNumber_length. f_equal. exact IH.
Qed.

Lemma assignSetIds_length (sets : list SetFields) (w : World) :
  length (assignSetIds sets w).1 = length sets.
Proof.
  revert w. induction sets as [|set rest IH]; intros w; simpl; [reflexivity|].
  specialize (IH {| exercises := exercises w; heap := heap w;
                    uuidCalls := S (uuidCalls w) |}).
  destruct (assignSetIds rest _) as [rest' w2]. simpl in *. rewrite IH. reflexivity.
Qed.

Lemma buildWorkouts_total (entries : list (string * DayData)) (w : World) :
  totalSets (buildWorkouts entries w).1 = measure setsOfDay entries.
Proof.
  unfold totalSets, measure.
  revert w. induction entries as [|[dateStr data] rest IH]; intros w; simpl;
    [reflexivity|].
  pose proof (assignSetIds_length (orderedSets (day_sets data))
                {| exercises := exercises w; heap := heap w; uuidCalls := S (uuidCalls w) |})
    as Hids.
  destruct (assignSetIds _ _) as [sets w2]. specialize (IH w2).
  destruct (buildWorkouts rest w2) as [workouts w3]. simpl in *.
  rewrite IH, Hids, orderedSets_length. reflexivity.
Qed.

End Counting.


(** ** Running the importer on a file *)

Section Stepping.

Context `{Platform}.

Lemma recordSet_nil (cols : WorkoutColumns) (values : list string) (dateKey : string)
    (set : SetEntry) :
  recordSet cols values dateKey set []
  = [(dateKey, addToDay cols values set {| day_sets := []; day_notes := None |})].
Proof.
  unfold recordSet, addToDay. simpl. rewrite String.eqb_refl.
  destruct (0 <=? workoutNotesIndex cols)%Z; simpl;
    [rewrite String.eqb_refl|]; reflexivity.
Qed.

Lemma recordSet_here (cols : WorkoutColumns) (values : list string) (dateKey : string)
    (set : SetEntry) (workout : DayData) (rest : OMap.t DayData) :
  recordSet cols values dateKey set ((dateKey, workout) :: rest)
  = (dateKey, addToDay cols values set workout) :: rest.
Proof.
  unfold recordSet, addToDay. simpl. rewrite String.eqb_refl. simpl.
  rewrite String.eqb_refl.
  destruct (0 <=? workoutNotesIndex cols)%Z; simpl;
    [rewrite String.eqb_refl|]; reflexivity.
Qed.

Lemma recordSet_skip (cols : WorkoutColumns) (values : list string)
    (dateKey otherKey : string) (set : SetEntry) (workout : DayData)
    (rest : OMap.t DayData) :
  otherKey ≠ dateKey →
  recordSet cols values dateKey set ((otherKey, workout) :: rest)
  = (otherKey, workout) :: recordSet cols values dateKey set rest.
Proof.
  intros Hne. apply String.eqb_neq in Hne.
  unfold recordSet. simpl. rewrite Hne. simpl.
  destruct (OMap.has rest dateKey); simpl; rewrite Hne;
    destruct (0 <=? workoutNotesIndex cols)%Z; simpl; rewrite ?Hne; reflexivity.
Qed.

Lemma processRows_nil (cols : WorkoutColumns) (i : nat) (st : Locals) (w : World) :
  processRows cols i [] st w = (Ok st, w).
Proof. reflexivity. Qed.

Lemma processRows_cons (cols : WorkoutColumns) (i : nat) (rawLine : string)
    (rest : list string) (st : Locals) (w : World) :
  processRows cols i (rawLine :: rest) st w =
  match processRow cols i rawLine st w with
  | (Ok st', w') => processRows cols (S i) rest st' w'
  | (Throw message, w') => (Throw message, w')
  end.
Proof. reflexivity. Qed.

End Stepping.

(** Replaces a closed term of the goal by its value. *)
Ltac eval_closed t := let v := eval vm_compute in t in change t with v.

(** Runs one turn of the loop for a complete and valid row of a day whose
    date is known to be valid by one of the hypotheses [Hvalid]. *)
Ltac step_row Hvalid1 Hvalid2 Hdistinct :=
  rewrite processRows_cons;
  erewrite processRow_complete;
    [| cbv; reflexivity | first [exact Hvalid1 | exact Hvalid2]];
  match goal with |- context [acceptsReps ?s] => eval_closed (acceptsReps s) end;
  match goal with |- context [acceptsSetNumber ?s] => eval_closed (acceptsSetNumber s) end;
  cbv iota;
  match goal with |- context [findOrCreateExercise ?c ?v ?n ?st ?w] =>
    eval_closed (findOrCreateExercise c v n st w) end;
  cbv iota beta; cbn [toDateString newDate workoutMap exerciseMap newExercises];
  first [ rewrite recordSet_nil
        | rewrite recordSet_here
        | rewrite recordSet_skip by exact Hdistinct;
          first [rewrite recordSet_nil | rewrite recordSet_here] ];
  match goal with |- context [addToDay ?c ?v ?s ?d] => eval_closed (addToDay c v s d) end.


(** ** The order of the sets of a day *)

Lemma elem_of_firstSeen (names : list string) (x : string) :
  x ∈ firstSeen names ↔ x ∈ names.
Proof.
  induction names as [|name rest IH]; simpl; [reflexivity|].
  rewrite !elem_of_cons, list_elem_of_filter, IH.
  destruct (decide (x = name)); intuition.
Qed.

Lemma NoDup_firstSeen (names : list string) : NoDup (firstSeen names).
Proof.
  induction names as [|name rest IH]; simpl; constructor.
  - rewrite list_elem_of_filter. intros [Hne _]. congruence.
  - apply NoDup_filter. assumption.
Qed.

Lemma firstSeen_snoc (names : list string) (k : string) :
  firstSeen (names ++ [k])
  = if decide (k ∈ names) then firstSeen names else (firstSeen names ++ [k])%list.
Proof.
  induction names as [|name rest IH]; simpl.
  - destruct (decide (k ∈ [])) as [Hin | _]; [inversion Hin | reflexivity].
  - rewrite IH. destruct (decide (k ∈ name :: rest)) as [Hin | Hnotin].
    + destruct (decide (k ∈ rest)) as [_ | Hrest]; [reflexivity|].
      apply elem_of_cons in Hin. destruct Hin as [-> | Hin]; [|contradiction].
      rewrite filter_app, filter_cons_False, filter_nil, app_nil_r by congruence.
      reflexivity.
    + rewrite not_elem_of_cons in Hnotin. destruct Hnotin as [Hne Hrest].
      rewrite decide_False by assumption.
      rewrite filter_app, filter_cons_True, filter_nil by assumption. reflexivity.
Qed.

Lemma filter_none {A} (P : A → Prop) `{∀ x, Decision (P x)} (l : list A) :
  Forall (λ x, ¬ P x) l → filter P l = [].
Proof.
  induction 1 as [|x rest Hx Hrest IH]; [reflexivity|].
  rewrite filter_cons_False by assumption. exact IH.
Qed.

Section Ordering.

Context `{Platform}.

(** *** The sort *)

Lemma insertBySetNumber_perm (set : SetEntry) (sorted : list SetEntry) :
  Permutation (insertBySetNumber set sorted) (set :: sorted).
Proof.
  induction sorted as [|other rest IH]; simpl; [reflexivity|].
  destruct (e_setNumber set <? e_setNumber other)%Z; [reflexivity|].
  rewrite IH. apply perm_swap.
Qed.

Lemma insertBySetNumber_sorted (set : SetEntry) (sorted : list SetEntry) :
  StronglySorted bySetNumber sorted →
  StronglySorted bySetNumber (insertBySetNumber set sorted).
Proof.
  induction 1 as [|other rest Hrest IH Hall]; simpl.
  - constructor; constructor.
  - destruct (Z.ltb_spec (e_setNumber set) (e_setNumber other)) as [Hlt | Hge].
    + constructor; [constructor; assumption|].
      constructor; [unfold bySetNumber; lia|].
      eapply Forall_impl; [exact Hall|]. unfold bySetNumber. intros x Hx. lia.
    + constructor; [assumption|].
      rewrite (insertBySetNumber_perm set rest). constructor; assumption.
Qed.

Lemma insertBySetNumber_numbered (n : Z) (set : SetEntry) (sorted : list SetEntry) :
  StronglySorted bySetNumber sorted →
  setsNumbered n (insertBySetNumber set sorted)
  = (setsNumbered n sorted ++ setsNumbered n [set])%list.
Proof.
  unfold setsNumbered. induction 1 as [|other rest Hrest IH Hall]; simpl.
  - reflexivity.
  - destruct (Z.ltb_spec (e_setNumber set) (e_setNumber other)) as [Hlt | Hge].
    + destruct (decide (e_setNumber set = n)) as [Hn | Hn].
      * rewrite (filter_cons_True _ set) by assumption.
        assert (Hnone : filter (λ s, e_setNumber s = n) (other :: rest) = []).
        { apply filter_none.
          rewrite Forall_cons. split; [lia|].
          eapply Forall_impl; [exact Hall|]. unfold bySetNumber. intros x Hx. lia. }
        rewrite Hnone. rewrite filter_cons_True by assumption. reflexivity.
      * rewrite !(filter_cons_False _ set) by assumption.
        rewrite filter_nil, app_nil_r. reflexivity.
    + rewrite !(filter_cons _ other). rewrite IH.
      destruct (decide (e_setNumber other = n)); reflexivity.
Qed.

Lemma sortInto_spec (exerciseSets sorted : list SetEntry) :
  StronglySorted bySetNumber sorted →
  Permutation (sortInto sorted exerciseSets) (sorted ++ exerciseSets) ∧
  StronglySorted bySetNumber (sortInto sorted exerciseSets) ∧
  ∀ n, setsNumbered n (sortInto sorted exerciseSets)
       = (setsNumbered n sorted ++ setsNumbered n exerciseSets)%list.
Proof.
  revert sorted. induction exerciseSets as [|set rest IH]; intros sorted Hsorted; simpl.
  - rewrite app_nil_r. split; [reflexivity|]. split; [assumption|].
    intros n. unfold setsNumbered. rewrite filter_nil, app_nil_r. reflexivity.
  - destruct (IH _ (insertBySetNumber_sorted set sorted Hsorted)) as [Hperm [Hs Hstable]].
    split; [|split; [exact Hs|]].
    + unfold sortInto in Hperm. rewrite Hperm, insertBySetNumber_perm.
      simpl. apply Permutation_middle.
    + intros n. unfold sortInto in Hstable. rewrite Hstable.
      rewrite (insertBySetNumber_numbered n set sorted Hsorted).
      unfold setsNumbered. rewrite (filter_cons _ set), filter_cons, filter_nil.
      destruct (decide (e_setNumber set = n)); simpl;
        rewrite <- ?app_assoc; reflexivity.
Qed.

(** The sort is a stable sort by set number: it permutes the sets, puts
    them in non-decreasing order of set number, and keeps the sets of equal
    number in the order they had. *)
Lemma sortBySetNumber_stable (exerciseSets : list SetEntry) :
  Permutation (sortBySetNumber exerciseSets) exerciseSets ∧
  StronglySorted bySetNumber (sortBySetNumber exerciseSets) ∧
  ∀ n, setsNumbered n (sortBySetNumber exerciseSets) = setsNumbered n exerciseSets.
Proof.
  destruct (sortInto_spec exerciseSets [] (SSorted_nil _)) as [Hperm [Hsorted Hstable]].
  split; [exact Hperm|]. split; [exact Hsorted|]. exact Hstable.
Qed.

(** *** The grouping *)

Lemma has_keyed {V} (g : string → V) (keys : list string) (k : string) :
  OMap.has ((λ name, (name, g name)) <$> keys) k = bool_decide (k ∈ keys).
Proof.
  unfold OMap.has. induction keys as [|name rest IH]; simpl; [reflexivity|].
  destruct (String.eqb_spec name k) as [-> | Hne]; simpl.
  - symmetry. apply bool_decide_eq_true. apply list_elem_of_here.
  - etransitivity; [exact IH|].
    apply bool_decide_ext. rewrite elem_of_cons. intuition congruence.
Qed.

Lemma set_new {V} (m : OMap.t V) (k : string) (v : V) :
  OMap.has m k = false → OMap.set m k v = (m ++ [(k, v)])%list.
Proof.
  induction m as [|[k' v'] rest IH]; simpl; intros Hnew; [reflexivity|].
  apply orb_false_iff in Hnew. destruct Hnew as [Hk Hrest].
  rewrite Hk, (IH Hrest). reflexivity.
Qed.

Lemma update_new {V} (m : OMap.t V) (k : string) (v : V) (f : V → V) :
  OMap.has m k = false →
  OMap.update (m ++ [(k, v)])%list k f = (m ++ [(k, f v)])%list.
Proof.
  induction m as [|[k' v'] rest IH]; simpl; intros Hnew.
  - rewrite String.eqb_refl. reflexivity.
  - apply orb_false_iff in Hnew. destruct Hnew as [Hk Hrest].
    rewrite Hk, (IH Hrest). reflexivity.
Qed.

Lemma update_keyed {V} (g : string → V) (keys : list string) (k : string) (f : V → V) :
  NoDup keys →
  OMap.update ((λ name, (name, g name)) <$> keys) k f
  = (λ name, (name, if decide (name = k) then f (g name) else g name)) <$> keys.
Proof.
  induction 1 as [|name rest Hfresh Hrest IH]; simpl; [reflexivity|].
  destruct (String.eqb_spec name k) as [-> | Hne].
  - rewrite decide_True by reflexivity. f_equal.
    apply list_fmap_ext. intros i name Hname.
    rewrite decide_False; [reflexivity|].
    intros ->. apply Hfresh. apply list_elem_of_lookup. eauto.
  - rewrite decide_False by assumption. f_equal. exact IH.
Qed.

Lemma setsNamed_snoc (name : string) (done : list SetEntry) (set : SetEntry) :
  setsNamed name (done ++ [set])
  = if decide (e_exerciseName set = name) then (setsNamed name done ++ [set])%list
    else setsNamed name done.
Proof.
  unfold setsNamed. rewrite filter_app, filter_cons, filter_nil.
  destruct (decide (e_exerciseName set = name)); [reflexivity | apply app_nil_r].
Qed.

Lemma setsNamed_absent (name : string) (sets : list SetEntry) :
  name ∉ e_exerciseName <$> sets → setsNamed name sets = [].
Proof.
  intros Habsent. apply filter_none. apply Forall_forall. intros set Hset Hname.
  apply Habsent. apply list_elem_of_fmap. exists set. split; [congruence | assumption].
Qed.

Lemma groupStep_groupsOf (done : list SetEntry) (set : SetEntry) :
  groupStep (groupsOf done) set = groupsOf (done ++ [set]).
Proof.
  unfold groupStep, groupsOf. rewrite fmap_app. simpl.
  rewrite firstSeen_snoc, has_keyed.
  set (k := e_exerciseName set). set (names := e_exerciseName <$> done).
  destruct (decide (k ∈ names)) as [Hin | Hnotin].
  - rewrite bool_decide_eq_true_2 by (apply elem_of_firstSeen; assumption).
    rewrite update_keyed by apply NoDup_firstSeen.
    apply list_fmap_ext. intros i name _. rewrite setsNamed_snoc. fold k.
    destruct (decide (name = k)) as [-> | Hne].
    + rewrite decide_True by reflexivity. reflexivity.
    + rewrite decide_False by congruence. reflexivity.
  - rewrite bool_decide_eq_false_2 by (rewrite elem_of_firstSeen; assumption).
    assert (Hhas : OMap.has ((λ name, (name, setsNamed name done)) <$> firstSeen names) k
                   = false).
    { rewrite has_keyed. apply bool_decide_eq_false_2.
      rewrite elem_of_firstSeen. assumption. }
    rewrite (set_new _ _ _ Hhas), (update_new _ _ _ _ Hhas).
    rewrite fmap_app. simpl. rewrite setsNamed_snoc. fold k.
    rewrite decide_True by reflexivity.
    rewrite (setsNamed_absent k done Hnotin). f_equal.
    apply list_fmap_ext. intros i name Hname. rewrite setsNamed_snoc. fold k.
    rewrite decide_False; [reflexivity|].
    intros Heq. apply Hnotin. apply elem_of_firstSeen. rewrite Heq.
    apply list_elem_of_lookup. eauto.
Qed.

Lemma foldl_groupStep (sets done : list SetEntry) :
  foldl groupStep (groupsOf done) sets = groupsOf (done ++ sets).
Proof.
  revert done. induction sets as [|set rest IH]; intros done; simpl.
  - rewrite app_nil_r. reflexivity.
  - rewrite groupStep_groupsOf, IH, <- app_assoc. reflexivity.
Qed.

(** The map built by the first [forEach] holds the groups by name. *)
Lemma groupByExercise_groupsOf (sets : list SetEntry) :
  groupByExercise sets = groupsOf sets.
Proof. exact (foldl_groupStep sets []). Qed.

(** The sets of a day are returned group by group, the groups being those
    of the exercise names as written, in the order in which the names first
    occur among the sets of the day, and each group being sorted by set
    number by a stable sort. *)
Theorem ordered_sets_by_name (sets : list SetEntry) :
  orderedSets sets
  = flat_map (λ name, stripSet <$> sortBySetNumber (setsNamed name sets))
             (firstSeen (e_exerciseName <$> sets)).
Proof.
  unfold orderedSets. rewrite groupByExercise_groupsOf. unfold groupsOf, OMap.values.
  induction (firstSeen (e_exerciseName <$> sets)) as [|name rest IH]; simpl;
    [reflexivity|].
  f_equal. exact IH.
Qed.

End Ordering.

(** ** The errors of the workout importer *)

Section Errors.

Context `{Platform}.

(** A throw of the loop comes from one of its turns: from the line at some
    position [k] of the lines it was given, with the loop index of that
    turn. *)
Lemma processRows_throws (cols : WorkoutColumns) (dataLines : list string) (i : nat)
    (st : Locals) (w w' : World) (message : string) :
  processRows cols i dataLines st w = (Throw message, w') →
  ∃ k rawLine dateStr exerciseName repsStr setNumberStr,
    dataLines !! k = Some rawLine ∧
    requiredCells cols (cellsOf rawLine)
    = Some (dateStr, exerciseName, repsStr, setNumberStr) ∧
    message ∈ [invalidDate dateStr (i + k); invalidReps repsStr (i + k);
               invalidSetNumber setNumberStr (i + k)].
Proof.
  revert i st w. induction dataLines as [|rawLine rest IH]; intros i st w; simpl.
  - discriminate.
  - destruct (processRow cols i rawLine st w) as [[st1|message1] w1] eqn:Hrow.
    + intros Hrest.
      destruct (IH _ _ _ Hrest) as [k [line [d [e [r [s [Hline [Hcells Hmsg]]]]]]]].
      exists (S k), line, d, e, r, s. split; [exact Hline|]. split; [exact Hcells|].
      replace (i + S k)%nat with (S i + k)%nat by lia. exact Hmsg.
    + intros [= <- <-].
      destruct (processRow_throws _ _ _ _ _ _ _ Hrow) as [d [e [r [s [Hcells Hmsg]]]]].
      exists 0%nat, rawLine, d, e, r, s. split; [reflexivity|]. split; [exact Hcells|].
      rewrite Nat.add_0_r. exact Hmsg.
Qed.

(** Every error of the workout importer is the error of a file that is too
    short, one of the four errors about a missing column, or the error of a
    line about its date, its reps or its set number.  In the last case the
    line stands at index [n] of the lines of the trimmed text, [n] being at
    least 1, it has its four required cells, and the message cites [n + 1],
    the number of the line counted from 1. *)
Lemma parseWorkoutsCSV_errors (csvContent : string) (w w' : World) (message : string) :
  parseWorkoutsCSV csvContent w = (Throw message, w') →
  message ∈ [tooFewLines; missingDateColumn; missingExerciseNameColumn;
             missingRepsColumn; missingSetNumberColumn] ∨
  ∃ n rawLine dateStr exerciseName repsStr setNumberStr,
    split LF (trim csvContent) !! n = Some rawLine ∧ (1 <= n)%nat ∧
    requiredCells (workoutColumns (headerRow (split LF (trim csvContent))))
      (cellsOf rawLine)
    = Some (dateStr, exerciseName, repsStr, setNumberStr) ∧
    message ∈ [invalidDate dateStr n; invalidReps repsStr n;
               invalidSetNumber setNumberStr n] ∧
    onLine n = " on line " ++ showNat (n + 1).
Proof.
  unfold parseWorkoutsCSV.
  destruct (length (split LF (trim csvContent)) <? 2)%nat;
    [intros [= <- _]; left; rewrite !elem_of_cons; auto 10|].
  destruct (dateIndex _ =? -1)%Z;
    [intros [= <- _]; left; rewrite !elem_of_cons; auto 10|].
  destruct (exerciseNameIndex _ =? -1)%Z;
    [intros [= <- _]; left; rewrite !elem_of_cons; auto 10|].
  destruct (repsIndex _ =? -1)%Z;
    [intros [= <- _]; left; rewrite !elem_of_cons; auto 10|].
  destruct (setNumberIndex _ =? -1)%Z;
    [intros [= <- _]; left; rewrite !elem_of_cons; auto 10|].
  destruct (processRows _ 1 _ _ w) as [[st|message1] w1] eqn:Hloop.
  - destruct (buildWorkouts (workoutMap st) w1) as [built w2]. discriminate.
  - intros [= <- <-]. right.
    destruct (processRows_throws _ _ _ _ _ _ _ Hloop)
      as [k [line [d [e [r [s [Hline [Hcells Hmsg]]]]]]]].
    exists (1 + k)%nat, line, d, e, r, s.
    split; [rewrite lookup_drop in Hline; exact Hline|].
    split; [lia|]. split; [exact Hcells|]. split; [exact Hmsg | reflexivity].
Qed.

End Errors.

(** ** The importers on concrete files *)

Section Examples.

Import ReferencePlatform.

(** C1, at a failing input.  The rows of one day name the exercise Plank
    twice, once as [Plank] and once as [plank], with Squats between them.
    The lookup of the exercise ignores letter case, so the importer creates
    one exercise for both rows and the two sets carry its id; the grouping
    compares the names as written, so the rows fall into two groups.  The
    workout returned holds the set of [Plank], number 2 with 10 reps, then
    the set of Squats, then the set of [plank], number 1 with 12 reps: the
    two sets of the same exercise are neither next to each other nor in the
    order of their set numbers. *)
Theorem case_variant_names_split_groups :
  parseWorkoutsCSV
    (linesOf ["date,exercise,set,reps";
              "2024-01-15,Plank,2,10";
              "2024-01-15,Squats,1,20";
              "2024-01-15,plank,1,12"])
    (worldOf [])
  = (Ok {| workouts :=
             [ {| wk_id := "uuid-2";
                  wk_date := parseDate "2024-01-15";
                  wk_sets :=
                    [ {| set_id := "uuid-3"; set_exerciseId := "uuid-0";
                         set_reps := 10; set_notes := None |};
                      {| set_id := "uuid-4"; set_exerciseId := "uuid-1";
                         set_reps := 20; set_notes := None |};
                      {| set_id := "uuid-5"; set_exerciseId := "uuid-0";
                         set_reps := 12; set_notes := None |} ];
                  wk_notes := None |} ];
           imported_newExercises := [0; 1]%nat |},
     {| exercises := [];
        heap :=
          [ {| ex_id := "uuid-0"; ex_name := "Plank"; ex_category := FullBody;
               ex_description := None; ex_createdAt := now |};
            {| ex_id := "uuid-1"; ex_name := "Squats"; ex_category := FullBody;
               ex_description := None; ex_createdAt := now |} ];
        uuidCalls := 6 |}).
Proof. reflexivity. Qed.

(** The same rows with one spelling of the name are ordered as C1 says. *)
Example one_spelling_one_group :
  (λ workout, (λ set, (set_exerciseId set, set_reps set)) <$> wk_sets workout)
  <$> match (parseWorkoutsCSV
               (linesOf ["date,exercise,set,reps";
                         "2024-01-15,Plank,2,10";
                         "2024-01-15,Squats,1,20";
                         "2024-01-15,Plank,1,12"])
               (worldOf [])).1 with
      | Ok imported => workouts imported
      | Throw _ => []
      end
  = [[("uuid-0", 12%Z); ("uuid-0", 10%Z); ("uuid-1", 20%Z)]].
Proof. reflexivity. Qed.


(** C4, as stated, fails: the row is complete and its date is valid, its
    reps cell [12abc] does not denote an integer, and the turn of the loop
    does not throw; the set is recorded with 12 reps. *)
Lemma trailing_text_accepted :
  let cols := workoutColumns ["date"; "exercise"; "set"; "reps"] in
  let rawLine := "2024-01-15,Plank,1,12abc" in
  requiredCells cols (cellsOf rawLine) = Some ("2024-01-15", "Plank", "12abc", "1") ∧
  is_Some (getTime (newDate "2024-01-15")) ∧
  denotedInteger "12abc" = None ∧
  throws (processRow cols 1 rawLine noLocals (worldOf [])).1 = false ∧
  (parseWorkoutsCSV (linesOf ["date,exercise,set,reps"; rawLine]) (worldOf [])).1
  = Ok {| workouts :=
            [ {| wk_id := "uuid-1"; wk_date := parseDate "2024-01-15";
                 wk_sets := [ {| set_id := "uuid-2"; set_exerciseId := "uuid-0";
                                 set_reps := 12; set_notes := None |} ];
                 wk_notes := None |} ];
          imported_newExercises := [0]%nat |}.
Proof.
  split; [reflexivity|]. split; [eexists; reflexivity|].
  repeat split; reflexivity.
Qed.

Lemma row_number_validation_witness :
  let cols := workoutColumns ["date"; "exercise"; "set"; "reps"] in
  let rawLine := "2024-01-15,Plank,0,7" in
  requiredCells cols (cellsOf rawLine) = Some ("2024-01-15", "Plank", "7", "0") ∧
  is_Some (getTime (newDate "2024-01-15")) ∧
  processRow cols 1 rawLine noLocals (worldOf [])
  = (Throw (invalidSetNumber "0" 1), worldOf []).
Proof.
  intros cols rawLine.
  assert (Hcells : requiredCells cols (cellsOf rawLine)
                   = Some ("2024-01-15", "Plank", "7", "0")) by reflexivity.
  assert (Hdate : is_Some (getTime (newDate "2024-01-15")))
    by (eexists; reflexivity).
  split; [exact Hcells|]. split; [exact Hdate|].
  destruct (row_number_validation cols 1 rawLine noLocals (worldOf [])
              "2024-01-15" "Plank" "7" "0" Hcells Hdate) as [_ [Hset _]].
  apply Hset; reflexivity.
Defined.

(** C6, as stated, fails: the row names an unknown exercise and gives the
    category [core]; the synonym table of the exercise importer sends
    [core] to abs, and the exercise created has the category full-body. *)
Lemma synonym_category_not_normalized :
  let csvContent :=
    linesOf ["date,exercise,exerciseCategory,set,reps"; "2024-01-15,Plank,core,1,10"] in
  normalizeCategory (Some "core") = Abs ∧
  ((parseWorkoutsCSV csvContent (worldOf [])).1
   = Ok {| workouts :=
             [ {| wk_id := "uuid-1"; wk_date := parseDate "2024-01-15";
                  wk_sets := [ {| set_id := "uuid-2"; set_exerciseId := "uuid-0";
                                  set_reps := 10; set_notes := None |} ];
                  wk_notes := None |} ];
           imported_newExercises := [0]%nat |}) ∧
  heap (parseWorkoutsCSV csvContent (worldOf [])).2
  = [ {| ex_id := "uuid-0"; ex_name := "Plank"; ex_category := FullBody;
         ex_description := None; ex_createdAt := now |} ].
Proof. repeat split; reflexivity. Qed.

Lemma new_exercise_created_witness :
  let cols := workoutColumns ["date"; "exercise"; "exercisecategory"; "set"; "reps"] in
  let values := ["2024-01-15"; "Plank"; "Abs "; "1"; "10"] in
  exerciseMap noLocals !! toLowerCase "Plank" = None ∧
  ∃ exercise st' w' created,
    findOrCreateExercise cols values "Plank" noLocals (worldOf []) = (exercise, st', w') ∧
    heap w' !! exercise = Some created ∧
    ex_name created = "Plank" ∧
    ex_category created = Abs ∧
    newExercises st' = [exercise].
Proof.
  intros cols values.
  assert (Habsent : exerciseMap noLocals !! toLowerCase "Plank" = None) by reflexivity.
  split; [exact Habsent|].
  destruct (new_exercise_created cols values "Plank" noLocals (worldOf []) Habsent)
    as [exercise [st' [w' [created
         [Hrun [_ [_ [Hcell [_ [Hname [Hcategory [Hnew _]]]]]]]]]]]].
  exists exercise, st', w', created.
  split; [exact Hrun|]. split; [exact Hcell|]. split; [exact Hname|].
  split; [|exact Hnew].
  apply Hcategory. left. reflexivity.
Defined.



End Examples.
